(** * CEPROC front end: the workflow engine of [App]

    A shallow embedding of the React component [App] (the six stage
    handlers, [handleReset], [updateSession], [getActiveStep]) together with
    the controls that [App], [UploadPage] and [ResultPage] bind to those
    handlers, and the properties of the pipeline proved on it. *)

From stdpp Require Import gmap strings list fin_maps.
From Stdlib Require Import ZArith Ascii.

Open Scope string_scope.
Open Scope Z_scope.

(** ** JavaScript values *)

(** The values the handlers store and read: text, [null], structured JSON
    (the validation reports) and [undefined], which is what reading a
    property that an object does not have yields. *)
#[warnings="-register-all"] Inductive jsval : Type :=
  | JUndefined
  | JNull
  | JStr (s : string)
  | JObj (props : list (string * jsval)).

(** A plain JS object used as a record of named properties. *)
Abbreviation obj := (gmap string jsval).

(** [o.k] *)
Definition prop (o : obj) (k : string) : jsval := default JUndefined (o !! k).

(** ToBoolean *)
Definition truthy (v : jsval) : bool :=
  match v with
  | JUndefined | JNull | JStr "" => false
  | JStr _ | JObj _ => true
  end.

(** [a || b] *)
Definition js_or (a b : jsval) : jsval := if truthy a then a else b.

(** ToString *)
Definition ToString (v : jsval) : string :=
  match v with
  | JUndefined => "undefined"
  | JNull => "null"
  | JStr s => s
  | JObj _ => "[object Object]"
  end.

(** [new Error(v).message] *)
Definition Error (v : jsval) : string :=
  match v with
  | JUndefined => ""
  | _ => ToString v
  end.

(** [s.startsWith(search)] *)
Definition startsWith (s search : string) : bool := String.prefix search s.

Definition is_undefined (v : jsval) : bool :=
  match v with JUndefined => true | _ => false end.

(** [JSON.stringify(o)] of an object literal, read back as the object the
    server parses: properties whose value is [undefined] are left out. *)
Definition JSON_stringify (o : obj) : obj :=
  filter (λ kv, is_undefined kv.2 = false) o.

(** ** Component state *)

(** The three [useState] cells of [App]. *)
Record App : Type := mkApp {
  view : string;
  error : string;
  sessionData : gmap string jsval
}.

(** The initial value of [sessionData], which [handleReset] writes again. *)
Definition empty_session : gmap string jsval :=
  <["relatorio_descoberta" := JStr ""]>
  (<["bpmn_xml_as_is" := JStr ""]>
  (<["bpmn_validation_as_is" := JNull]>
  (<["consultoria" := JStr ""]>
  (<["propostas_aprovadas" := JStr ""]>
  (<["bpmn_xml_to_be" := JStr ""]>
  (<["bpmn_validation_to_be" := JNull]>
  (<["pop_texto" := JStr ""]>
  (<["aviso_bizagi" := JStr ""]> ∅)))))))).

Definition initial_app : App :=
  {| view := "upload"; error := ""; sessionData := empty_session |}.

(** ** Effects: state updates and exceptions *)

Inductive result (A : Type) : Type :=
  | Return (a : A)
  | Throw (message : string).
Arguments Return {A} a.
Arguments Throw {A} message.

(** A piece of handler code: it updates the component state and either
    finishes with a value or throws; updates made before a throw stay. *)
Definition Eff (A : Type) : Type := App → result A * App.

Definition eff_ret {A} (a : A) : Eff A := λ st, (Return a, st).

Definition eff_bind {A B} (f : A → Eff B) (m : Eff A) : Eff B :=
  λ st, match m st with
        | (Return a, st') => f a st'
        | (Throw e, st') => (Throw e, st')
        end.

#[global] Instance Eff_ret : MRet Eff := @eff_ret.
#[global] Instance Eff_bind : MBind Eff := @eff_bind.

Definition throw {A} (message : string) : Eff A := λ st, (Throw message, st).

(** [try { body } catch (e) { handler(e.message) }] *)
Definition try_catch {A} (body : Eff A) (handler : string → Eff A) : Eff A :=
  λ st, match body st with
        | (Return a, st') => (Return a, st')
        | (Throw e, st') => handler e st'
        end.

(** [await p] for a promise that settled with [r] *)
Definition await {A} (r : result A) : Eff A := λ st, (r, st).

Definition setView (v : string) : Eff unit :=
  λ st, (Return tt, {| view := v; error := error st; sessionData := sessionData st |}).

Definition setError (e : string) : Eff unit :=
  λ st, (Return tt, {| view := view st; error := e; sessionData := sessionData st |}).

(** [setSessionData(next)] and [setSessionData(prev => f(prev))] *)
Definition setSessionData (next : gmap string jsval) : Eff unit :=
  λ st, (Return tt, {| view := view st; error := error st; sessionData := next |}).

Definition setSessionData_with (f : gmap string jsval → gmap string jsval) : Eff unit :=
  λ st, (Return tt, {| view := view st; error := error st; sessionData := f (sessionData st) |}).

(** [{ ...prev, ...updates }]: the later spread wins. *)
Definition spread (prev updates : gmap string jsval) : gmap string jsval :=
  updates ∪ prev.

Definition updateSession (updates : gmap string jsval) : Eff unit :=
  setSessionData_with (λ prev, spread prev updates).

(** ** The network *)

Inductive File : Type := mkFile (filename : string) (bytes : string).

Inductive Body : Type :=
  | FormData (file : File)
  | JsonBody (o : gmap string jsval).

Record Request : Type := mkRequest { url : string; body : Body }.

(** What [fetch] resolves with: [ok], and what [res.json()] settles with
    (it rejects when the body cannot be read as a JSON object). *)
Record Response : Type := mkResponse {
  ok : bool;
  res_json : result (gmap string jsval)
}.

(** [fetch(url, ...)] rejects on a network failure. *)
Definition fetch_outcome : Type := result Response.

Definition fetch (u : string) (b : Body) : Request := {| url := u; body := b |}.

(** ** The handlers of [App]

    Each stage handler is an [async] function with a single [await fetch]:
    the part up to the [fetch] runs when the handler is called and yields
    the request; the part from the [await] on runs when the call settles.
    The handlers read [sessionData] from the render they were created in,
    which is passed as an argument. *)

Definition catch_error (e : string) : Eff unit :=
  setError e;;
  setView "error".

Definition handleUpload (file : File) : Eff Request :=
  setView "modulo1";;
  setError "";;
  mret (fetch "/api/modulo1" (FormData file)).

Definition handleUpload_settled (settled : fetch_outcome) : Eff unit :=
  try_catch
    (res ← await settled;
     (if negb (ok res)
      then err ← await (res_json res);
           throw (Error (js_or (prop err "detail") (JStr "Erro no Módulo 1")))
      else mret tt);;
     json ← await (res_json res);
     updateSession {[ "relatorio_descoberta" := prop json "relatorio_descoberta" ]};;
     setView "review1")
    catch_error.

Definition handleTextUpload (text : string) : Eff Request :=
  setView "modulo1";;
  setError "";;
  mret (fetch "/api/modulo1-text"
          (JsonBody (JSON_stringify {[ "transcricao" := JStr text ]}))).

Definition handleTextUpload_settled (settled : fetch_outcome) : Eff unit :=
  try_catch
    (res ← await settled;
     (if negb (ok res)
      then err ← await (res_json res);
           throw (Error (js_or (prop err "detail") (JStr "Erro no Módulo 1")))
      else mret tt);;
     json ← await (res_json res);
     updateSession {[ "relatorio_descoberta" := prop json "relatorio_descoberta" ]};;
     setView "review1")
    catch_error.

Definition handleModulo2 (sessionData : gmap string jsval) : Eff Request :=
  setView "modulo2";;
  setError "";;
  mret (fetch "/api/modulo2"
          (JsonBody (JSON_stringify
             {[ "relatorio_descoberta" := prop sessionData "relatorio_descoberta" ]}))).

Definition handleModulo2_settled (settled : fetch_outcome) : Eff unit :=
  try_catch
    (res ← await settled;
     (if negb (ok res)
      then err ← await (res_json res);
           throw (Error (js_or (prop err "detail") (JStr "Erro no Módulo 2")))
      else mret tt);;
     json ← await (res_json res);
     updateSession
       (<["bpmn_xml_as_is" := prop json "bpmn_xml_as_is"]>
       (<["bpmn_validation_as_is" := prop json "bpmn_validation"]>
       (<["aviso_bizagi" := prop json "aviso_bizagi"]> ∅)));;
     setView "review2")
    catch_error.

Definition handleModulo3a (sessionData : gmap string jsval) : Eff Request :=
  setView "modulo3a";;
  setError "";;
  mret (fetch "/api/modulo3a"
          (JsonBody (JSON_stringify
             (<["relatorio_descoberta" := prop sessionData "relatorio_descoberta"]>
             (<["bpmn_xml_as_is" := prop sessionData "bpmn_xml_as_is"]> ∅))))).

Definition handleModulo3a_settled (settled : fetch_outcome) : Eff unit :=
  try_catch
    (res ← await settled;
     (if negb (ok res)
      then err ← await (res_json res);
           throw (Error (js_or (prop err "detail") (JStr "Erro no Módulo 3A")))
      else mret tt);;
     json ← await (res_json res);
     updateSession {[ "consultoria" := prop json "consultoria" ]};;
     setView "review3a")
    catch_error.

Definition handleModulo3b (sessionData : gmap string jsval) (propostas : string)
  : Eff Request :=
  setView "modulo3b";;
  setError "";;
  updateSession {[ "propostas_aprovadas" := JStr propostas ]};;
  mret (fetch "/api/modulo3b"
          (JsonBody (JSON_stringify
             (<["relatorio_descoberta" := prop sessionData "relatorio_descoberta"]>
             (<["consultoria" := prop sessionData "consultoria"]>
             (<["propostas_aprovadas" := JStr propostas]> ∅)))))).

Definition handleModulo3b_settled (settled : fetch_outcome) : Eff unit :=
  try_catch
    (res ← await settled;
     (if negb (ok res)
      then err ← await (res_json res);
           throw (Error (js_or (prop err "detail") (JStr "Erro no Módulo 3B")))
      else mret tt);;
     json ← await (res_json res);
     updateSession
       (<["bpmn_xml_to_be" := prop json "bpmn_xml_to_be"]>
       (<["bpmn_validation_to_be" := prop json "bpmn_validation"]>
       (<["aviso_bizagi" := prop json "aviso_bizagi"]> ∅)));;
     setView "review3b")
    catch_error.

Definition handleModulo4 (sessionData : gmap string jsval) : Eff Request :=
  setView "modulo4";;
  setError "";;
  mret (fetch "/api/modulo4"
          (JsonBody (JSON_stringify
             (<["bpmn_xml_to_be" := prop sessionData "bpmn_xml_to_be"]>
             (<["relatorio_descoberta" := prop sessionData "relatorio_descoberta"]> ∅))))).

Definition handleModulo4_settled (settled : fetch_outcome) : Eff unit :=
  try_catch
    (res ← await settled;
     (if negb (ok res)
      then err ← await (res_json res);
           throw (Error (js_or (prop err "detail") (JStr "Erro no Módulo 4")))
      else mret tt);;
     json ← await (res_json res);
     updateSession {[ "pop_texto" := prop json "pop_texto" ]};;
     setView "final")
    catch_error.

Definition handleReset : Eff unit :=
  setView "upload";;
  setError "";;
  setSessionData empty_session.

(** [getActiveStep], as a function of [view]. *)
Definition getActiveStep (view : string) : Z :=
  if startsWith view "modulo1" || String.eqb view "review1" then 0
  else if startsWith view "modulo2" || String.eqb view "review2" then 1
  else if startsWith view "modulo3" || String.eqb view "review3a"
          || String.eqb view "review3b" then 2
  else if startsWith view "modulo4" || String.eqb view "final" then 3
  else -1.

Definition isProcessing (view : string) : bool :=
  bool_decide (view ∈ ["modulo1"; "modulo2"; "modulo3a"; "modulo3b"; "modulo4"]).

(** ** The pipeline as a transition system *)

(** The handler whose [await fetch] is pending. *)
Inductive handler : Type :=
  | HUpload | HTextUpload | HModulo2 | HModulo3a | HModulo3b | HModulo4.

Definition settled_of (h : handler) : fetch_outcome → Eff unit :=
  match h with
  | HUpload => handleUpload_settled
  | HTextUpload => handleTextUpload_settled
  | HModulo2 => handleModulo2_settled
  | HModulo3a => handleModulo3a_settled
  | HModulo3b => handleModulo3b_settled
  | HModulo4 => handleModulo4_settled
  end.

Record Call : Type := mkCall { caller : handler; request : Request }.

(** The component state and the stage calls that have not settled yet. *)
Record System : Type := mkSystem { app : App; inflight : list Call }.

Definition initial : System := {| app := initial_app; inflight := [] |}.

(** What the user can do: the handlers that [App] passes to [UploadPage],
    [ResultPage] and the error banner. *)
Inductive action : Type :=
  | SubmitAudio (file : File)
  | SubmitText (text : string)
  | ApproveModulo2
  | ApproveModulo3a
  | ApproveModulo3b (propostas : string)
  | ApproveModulo4
  | Reset.

(** Calling a stage handler: its synchronous part runs, its state updates
    are committed before the next event, and the request is in flight. *)
Definition start (h : handler) (m : Eff Request) (s : System) : System :=
  match m (app s) with
  | (Return req, st) =>
      {| app := st; inflight := inflight s ++ [{| caller := h; request := req |}] |}
  | (Throw _, st) => {| app := st; inflight := inflight s |}
  end.

(** A call of the handler behind an action, whatever the view. The
    handler closes over the [sessionData] of the current render. Nothing
    cancels a pending call: [handleReset] leaves [inflight] as it is. *)
Definition invoke (a : action) (s : System) : System :=
  match a with
  | SubmitAudio file => start HUpload (handleUpload file) s
  | SubmitText text => start HTextUpload (handleTextUpload text) s
  | ApproveModulo2 => start HModulo2 (handleModulo2 (sessionData (app s))) s
  | ApproveModulo3a => start HModulo3a (handleModulo3a (sessionData (app s))) s
  | ApproveModulo3b propostas =>
      start HModulo3b (handleModulo3b (sessionData (app s)) propostas) s
  | ApproveModulo4 => start HModulo4 (handleModulo4 (sessionData (app s))) s
  | Reset => {| app := (handleReset (app s)).2; inflight := inflight s |}
  end.

(** The [n]-th pending call settles and its handler runs on. *)
Definition settle (n : nat) (settled : fetch_outcome) (s : System) : option System :=
  match inflight s !! n with
  | Some c =>
      Some {| app := (settled_of (caller c) settled (app s)).2;
              inflight := delete n (inflight s) |}
  | None => None
  end.

(** *** The states of the pipeline, as the flow comment of [App] lists them *)

Inductive stageId : Type := S1 | S2 | S3a | S3b | S4.

Definition stage_of (h : handler) : stageId :=
  match h with
  | HUpload | HTextUpload => S1
  | HModulo2 => S2
  | HModulo3a => S3a
  | HModulo3b => S3b
  | HModulo4 => S4
  end.

Inductive PipelineState : Type :=
  | Idle
  | Running (s : stageId)
  | AwaitingReview (s : stageId)
  | Failed (message : string).

(** The review state of stage 4 is the view ['final']. *)
Definition view_of (p : PipelineState) : string :=
  match p with
  | Idle => "upload"
  | Running S1 => "modulo1"
  | AwaitingReview S1 => "review1"
  | Running S2 => "modulo2"
  | AwaitingReview S2 => "review2"
  | Running S3a => "modulo3a"
  | AwaitingReview S3a => "review3a"
  | Running S3b => "modulo3b"
  | AwaitingReview S3b => "review3b"
  | Running S4 => "modulo4"
  | AwaitingReview S4 => "final"
  | Failed _ => "error"
  end.

Definition pipeline_state (st : App) : option PipelineState :=
  let v := view st in
  if String.eqb v "upload" then Some Idle
  else if String.eqb v "modulo1" then Some (Running S1)
  else if String.eqb v "review1" then Some (AwaitingReview S1)
  else if String.eqb v "modulo2" then Some (Running S2)
  else if String.eqb v "review2" then Some (AwaitingReview S2)
  else if String.eqb v "modulo3a" then Some (Running S3a)
  else if String.eqb v "review3a" then Some (AwaitingReview S3a)
  else if String.eqb v "modulo3b" then Some (Running S3b)
  else if String.eqb v "review3b" then Some (AwaitingReview S3b)
  else if String.eqb v "modulo4" then Some (Running S4)
  else if String.eqb v "final" then Some (AwaitingReview S4)
  else if String.eqb v "error" then Some (Failed (error st))
  else None.

(** *** The controls on screen *)

Section Controls.

(** [String.prototype.trim], a built-in of the host. *)
Variable trim : string → string.

(** [App] renders [UploadPage] for ['upload'], [StepProgress] (which gets
    no handler) while processing, [ResultPage] for the review views and
    ['final'], and the error banner for ['error']. *)
Definition shows_UploadPage (view : string) : bool := String.eqb view "upload".

Definition shows_ResultPage (view : string) : bool :=
  startsWith view "review" || String.eqb view "final".

Definition shows_error (view : string) : bool := String.eqb view "error".

(** Whether the view shows a control, not disabled, that calls the
    handler of the action. *)
Definition enabled (view : string) (a : action) : bool :=
  match a with
  | SubmitAudio _ => shows_UploadPage view
  | SubmitText text => shows_UploadPage view && truthy (JStr (trim text))
  | ApproveModulo2 => shows_ResultPage view && String.eqb view "review1"
  | ApproveModulo3a => shows_ResultPage view && String.eqb view "review2"
  | ApproveModulo3b propostas =>
      shows_ResultPage view && String.eqb view "review3a"
      && truthy (JStr (trim propostas))
  | ApproveModulo4 => shows_ResultPage view && String.eqb view "review3b"
  | Reset =>
      shows_ResultPage view
      && (String.eqb view "review1" || String.eqb view "review2"
          || String.eqb view "review3a" || String.eqb view "review3b"
          || String.eqb view "final")
      || shows_error view
  end.

Inductive event : Type :=
  | User (a : action)
  | Settles (n : nat) (settled : fetch_outcome).

(** One user action on a control that is on screen, or one completion of
    a pending call. *)
Definition step (e : event) (s : System) : option System :=
  match e with
  | User a => if enabled (view (app s)) a then Some (invoke a s) else None
  | Settles n settled => settle n settled s
  end.

(** The states visited by a sequence of events, the first one included. *)
Fixpoint run (events : list event) (s : System) : option (list System) :=
  match events with
  | [] => Some [s]
  | e :: events' =>
      match step e s with
      | Some s' =>
          match run events' s' with
          | Some visited => Some (s :: visited)
          | None => None
          end
      | None => None
      end
  end.

Inductive reachable : System → Prop :=
  | reachable_initial : reachable initial
  | reachable_step s e s' : reachable s → step e s = Some s' → reachable s'.

End Controls.

(** What an observer sees of a state: the pipeline state and the stages
    with a call in flight. *)
Definition observe (s : System) : option PipelineState * list stageId :=
  (pipeline_state (app s), (stage_of ∘ caller) <$> inflight s).

(** A settled call that is a success: [fetch] resolved, [res.ok] holds and
    the body reads as JSON. *)
Definition success (json : gmap string jsval) : fetch_outcome :=
  Return {| ok := true; res_json := Return json |}.

Definition succeeded (settled : fetch_outcome) : bool :=
  match settled with
  | Return {| ok := true; res_json := Return _ |} => true
  | _ => false
  end.

(** The update a stage handler merges when its call succeeded with [json]. *)
Definition merged_on_success (h : handler) (json : gmap string jsval)
  : gmap string jsval :=
  match h with
  | HUpload | HTextUpload =>
      {[ "relatorio_descoberta" := prop json "relatorio_descoberta" ]}
  | HModulo2 =>
      <["bpmn_xml_as_is" := prop json "bpmn_xml_as_is"]>
      (<["bpmn_validation_as_is" := prop json "bpmn_validation"]>
      (<["aviso_bizagi" := prop json "aviso_bizagi"]> ∅))
  | HModulo3a => {[ "consultoria" := prop json "consultoria" ]}
  | HModulo3b =>
      <["bpmn_xml_to_be" := prop json "bpmn_xml_to_be"]>
      (<["bpmn_validation_to_be" := prop json "bpmn_validation"]>
      (<["aviso_bizagi" := prop json "aviso_bizagi"]> ∅))
  | HModulo4 => {[ "pop_texto" := prop json "pop_texto" ]}
  end.

(** The keys of [sessionData] that each stage handler writes on success. *)
Definition written_by (h : handler) : list string :=
  match h with
  | HUpload | HTextUpload => ["relatorio_descoberta"]
  | HModulo2 => ["bpmn_xml_as_is"; "bpmn_validation_as_is"; "aviso_bizagi"]
  | HModulo3a => ["consultoria"]
  | HModulo3b => ["bpmn_xml_to_be"; "bpmn_validation_to_be"; "aviso_bizagi"]
  | HModulo4 => ["pop_texto"]
  end.

(** The stage handler behind an action ([Reset] has none). *)
Definition handler_of (a : action) : option handler :=
  match a with
  | SubmitAudio _ => Some HUpload
  | SubmitText _ => Some HTextUpload
  | ApproveModulo2 => Some HModulo2
  | ApproveModulo3a => Some HModulo3a
  | ApproveModulo3b _ => Some HModulo3b
  | ApproveModulo4 => Some HModulo4
  | Reset => None
  end.

(** The linear run: a submission, then each call succeeding and each
    review approved. *)
Definition linear_run (submit : action) (propostas : string)
    (json1 json2 json3a json3b json4 : gmap string jsval) : list event :=
  [ User submit; Settles 0 (success json1);
    User ApproveModulo2; Settles 0 (success json2);
    User ApproveModulo3a; Settles 0 (success json3a);
    User (ApproveModulo3b propostas); Settles 0 (success json3b);
    User ApproveModulo4; Settles 0 (success json4) ].

(** ** The invariant of the reachable states *)

(** The record still has its initial value at every key outside [written]. *)
Definition keeps_outside (written : list string) (sd : gmap string jsval) : Prop :=
  ∀ k, k ∉ written → sd !! k = empty_session !! k.

Definition proposals_chosen (sd : gmap string jsval) : Prop :=
  ∃ p, p ≠ "" ∧ sd !! "propostas_aprovadas" = Some (JStr p).

Definition session_at (p : PipelineState) (sd : gmap string jsval) : Prop :=
  match p with
  | Idle | Running S1 => sd = empty_session
  | AwaitingReview S1 | Running S2 => keeps_outside ["relatorio_descoberta"] sd
  | AwaitingReview S2 | Running S3a =>
      keeps_outside ["relatorio_descoberta"; "bpmn_xml_as_is";
                     "bpmn_validation_as_is"; "aviso_bizagi"] sd
  | AwaitingReview S3a => True
  | Running S3b | AwaitingReview S3b | Running S4 | AwaitingReview S4 =>
      proposals_chosen sd
  | Failed _ => True
  end.

(** One call is pending while a stage runs, for that stage, and none
    otherwise. *)
Definition calls_at (p : PipelineState) (calls : list Call) : Prop :=
  match p with
  | Running st => ∃ c, calls = [c] ∧ stage_of (caller c) = st
  | _ => calls = []
  end.

Definition Inv (s : System) : Prop :=
  ∃ p, pipeline_state (app s) = Some p
       ∧ calls_at p (inflight s)
       ∧ session_at p (sessionData (app s)).

(** What [JSON.stringify] makes of a property with value [v]. *)
Definition wire (v : jsval) : option jsval :=
  if is_undefined v then None else Some v.

(** The body that carries the properties [keys] of [sd] and nothing else. *)
Definition carries (o sd : gmap string jsval) (keys : list string) : Prop :=
  ∀ k, o !! k = if bool_decide (k ∈ keys) then wire (prop sd k) else None.

(** The text fields and the validation fields of the record. *)
Definition text_fields : list string :=
  ["relatorio_descoberta"; "bpmn_xml_as_is"; "consultoria"; "propostas_aprovadas";
   "bpmn_xml_to_be"; "pop_texto"; "aviso_bizagi"].

Definition validation_fields : list string :=
  ["bpmn_validation_as_is"; "bpmn_validation_to_be"].

(** The default message of each handler, thrown when the error body has
    no usable [detail]. *)
Definition default_message (h : handler) : string :=
  match h with
  | HUpload | HTextUpload => "Erro no Módulo 1"
  | HModulo2 => "Erro no Módulo 2"
  | HModulo3a => "Erro no Módulo 3A"
  | HModulo3b => "Erro no Módulo 3B"
  | HModulo4 => "Erro no Módulo 4"
  end.

(** A call that resolved with [res.ok] false and the JSON body [err]. *)
Definition rejected (err : gmap string jsval) : fetch_outcome :=
  Return {| ok := false; res_json := Return err |}.

(** A call that resolved with [res.ok] false and a body that [res.json()]
    cannot read: it rejects with [message]. *)
Definition rejected_unreadable (message : string) : fetch_outcome :=
  Return {| ok := false; res_json := Throw message |}.

(** ** Sample inputs *)

(** An instance of the host's [trim], for texts whose white space is ASCII
    (tab, line feed, vertical tab, form feed, carriage return, space). *)
Fixpoint trimStart_ascii (s : string) : string :=
  match s with
  | String a s' => if Ascii.is_space a then trimStart_ascii s' else s
  | EmptyString => EmptyString
  end.

Definition trim_ascii (s : string) : string :=
  String.rev (trimStart_ascii (String.rev (trimStart_ascii s))).

Definition sample_file : File := mkFile "entrevista.mp3" "".

(** Stage 1 running after the submission of [sample_file]. *)
Definition sample_running1 : System := invoke (SubmitAudio sample_file) initial.

(** The review of stage 1 with the report ["Relatório..."]. *)
Definition sample_review1 : System :=
  {| app := {| view := "review1"; error := "";
               sessionData := <["relatorio_descoberta" := JStr "Relatório..."]>
                                empty_session |};
     inflight := [] |}.

(** Stage 2 running after the approval of that report. *)
Definition sample_running2 : System := invoke ApproveModulo2 sample_review1.

(** The review of stage 3a. *)
Definition sample_review3a : System :=
  {| app := {| view := "review3a"; error := "";
               sessionData := <["consultoria" := JStr "1. ... 2. ... 3. ..."]>
                              (<["bpmn_xml_as_is" := JStr "<definitions/>"]>
                              (<["relatorio_descoberta" := JStr "Relatório..."]>
                                empty_session)) |};
     inflight := [] |}.

(** * The rest of the front end *)

(** ** What [App] renders *)

(** The label that [App] hands to [StepProgress]. *)
Definition processingLabel (view : string) : string :=
  if String.eqb view "modulo1"
  then "Analisando o áudio/texto e gerando Relatório de Descoberta..."
  else if String.eqb view "modulo2" then "Convertendo fluxo para BPMN XML (AS-IS)..."
  else if String.eqb view "modulo3a" then "Executando consultoria Lean..."
  else if String.eqb view "modulo3b" then "Gerando novo fluxo BPMN (TO-BE)..."
  else if String.eqb view "modulo4" then "Gerando Procedimento Operacional Padrão..."
  else "".

(** The children of [<main>]: each is rendered when its condition holds. *)
Inductive region : Type :=
  | UploadRegion | ProgressRegion | ResultRegion | ErrorRegion.

Definition rendered_regions (view : string) : list region :=
  ((if String.eqb view "upload" then [UploadRegion] else [])
   ++ (if isProcessing view then [ProgressRegion] else [])
   ++ (if startsWith view "review" || String.eqb view "final"
       then [ResultRegion] else [])
   ++ (if String.eqb view "error" then [ErrorRegion] else []))%list.

(** ** [StepProgress] *)

Module StepProgress.

Inductive status : Type := pending | done | active.

(** The four entries of [STEPS], by title. *)
Definition STEPS : list string :=
  [ "Módulo 1 — Extração e Diagnóstico AS-IS";
    "Módulo 2 — Conversor BPMN-XML";
    "Módulo 3 — Consultoria e Redesenho TO-BE";
    "Módulo 4 — Geração do POP" ].

(** The status of the step at index [idx]. *)
Definition status_of (idx currentStep : Z) : status :=
  if idx <? currentStep then done
  else if idx =? currentStep then active
  else pending.

(** [STEPS.map((step, idx) => ...)], keeping the status of each item. *)
Definition statuses (currentStep : Z) : list status :=
  imap (λ idx _, status_of (Z.of_nat idx) currentStep) STEPS.

End StepProgress.

(** ** [ResultPage] *)

Module ResultPage.

Definition getModuleNumber (view : string) : Z :=
  if String.eqb view "review1" then 1
  else if String.eqb view "review2" then 2
  else if String.eqb view "review3a" || String.eqb view "review3b" then 3
  else if String.eqb view "final" then 4
  else 0.

(** The screen that [ResultPage] returns; [None] is its final
    [return null]. *)
Inductive screen : Type := Review1 | Review2 | Review3a | Review3b | Final.

Definition screen_of (view : string) : option screen :=
  if String.eqb view "review1" then Some Review1
  else if String.eqb view "review2" then Some Review2
  else if String.eqb view "review3a" then Some Review3a
  else if String.eqb view "review3b" then Some Review3b
  else if String.eqb view "final" then Some Final
  else None.


End ResultPage.

(** ** [UploadPage] *)

Module UploadPage.

Inductive Mode : Type := audio | text.

(** The [useState] cells of [UploadPage]. *)
Record State : Type := mkState {
  mode : Mode;
  file : option File;
  text_value : string;
  isDragging : bool
}.

Definition initial_state : State :=
  {| mode := audio; file := None; text_value := ""; isDragging := false |}.

Definition name_of (f : File) : string :=
  match f with mkFile filename _ => filename end.

(** [s.split('.')]: never empty. *)
Fixpoint split_dot (s : string) : list string :=
  match s with
  | EmptyString => [EmptyString]
  | String c s' =>
      if Ascii.eqb c "."%char
      then EmptyString :: split_dot s'
      else match split_dot s' with
           | h :: t => String c h :: t
           | [] => [String c EmptyString]
           end
  end.

Definition allowed : list string :=
  ["mp3"; "wav"; "ogg"; "m4a"; "webm"; "flac"; "aac"].

(** A text without a dot. *)
Fixpoint dotless (s : string) : bool :=
  match s with
  | EmptyString => true
  | String c s' => negb (Ascii.eqb c "."%char) && dotless s'
  end.

(** [xs.join(sep)] *)
Fixpoint join (sep : string) (xs : list string) : string :=
  match xs with
  | [] => ""
  | [x] => x
  | x :: xs' => x ++ sep ++ join sep xs'
  end.

Section Handlers.

(** [String.prototype.toLowerCase] and [String.prototype.trim], built-ins
    of the host. *)
Variable toLowerCase : string → string.
Variable trim : string → string.

(** [f.name.split('.').pop().toLowerCase()] *)
Definition extension (f : File) : string :=
  toLowerCase (default "" (last (split_dot (name_of f)))).

(** [handleFiles]: the new state and the text of the [alert], if any. *)
Definition handleFiles (files : list File) (st : State) : State * option string :=
  match files !! 0%nat with
  | None => (st, None)
  | Some f =>
      let ext := extension f in
      if negb (bool_decide (ext ∈ allowed))
      then (st, Some ("Formato não suportado: ." ++ ext ++ String "010"%char "Use: "
                      ++ join ", " ((λ e, "." ++ e) <$> allowed)))
      else ({| mode := mode st; file := Some f; text_value := text_value st;
               isDragging := isDragging st |}, None)
  end.

Definition setIsDragging (b : bool) (st : State) : State :=
  {| mode := mode st; file := file st; text_value := text_value st;
     isDragging := b |}.

Definition handleDrop (files : list File) (st : State) : State * option string :=
  handleFiles files (setIsDragging false st).

Definition removeFile (st : State) : State :=
  {| mode := mode st; file := None; text_value := text_value st;
     isDragging := isDragging st |}.

Definition setMode (m : Mode) (st : State) : State :=
  {| mode := m; file := file st; text_value := text_value st;
     isDragging := isDragging st |}.

Definition setText (t : string) (st : State) : State :=
  {| mode := mode st; file := file st; text_value := t;
     isDragging := isDragging st |}.

(** [handleSubmit]: the handler of [App] it calls, as an action. *)
Definition handleSubmit (st : State) : option action :=
  match mode st, file st with
  | audio, Some f => Some (SubmitAudio f)
  | audio, None => None
  | text, _ =>
      if truthy (JStr (trim (text_value st)))
      then Some (SubmitText (text_value st))
      else None
  end.

Definition canSubmit (st : State) : bool :=
  match mode st with
  | audio => match file st with Some _ => true | None => false end
  | text => (0 <? String.length (trim (text_value st)))%nat
  end.

End Handlers.

End UploadPage.

(** ** [ChatPanel] *)

Module ChatPanel.

Record Message : Type := mkMessage { role : string; content : jsval }.

(** The [useState] cells of [ChatPanel]. *)
Record State : Type := mkState {
  messages : list Message;
  input : string;
  loading : bool;
  isOpen : bool
}.

Definition initial_state : State :=
  {| messages := []; input := ""; loading := false; isOpen := false |}.

(** The body of the request to [/api/chat]: its [context] and its
    [messages], the history sent. *)
Record ChatRequest : Type := mkChatRequest {
  context : jsval;
  history : list Message
}.

Definition setMessages (ms : list Message) (st : State) : State :=
  {| messages := ms; input := input st; loading := loading st; isOpen := isOpen st |}.

Definition setInput (i : string) (st : State) : State :=
  {| messages := messages st; input := i; loading := loading st; isOpen := isOpen st |}.

Definition setLoading (b : bool) (st : State) : State :=
  {| messages := messages st; input := input st; loading := b; isOpen := isOpen st |}.

(** The [try] block of [handleSend] from the [await fetch] on: the reply,
    or the message of the error that the [catch] block receives. The error
    body is read with [res.json().catch(() => ({}))]. *)
Definition reply_of (settled : fetch_outcome) : result jsval :=
  match settled with
  | Throw e => Throw e
  | Return res =>
      if negb (ok res)
      then let err := match res_json res with
                      | Return o => o
                      | Throw _ => ∅
                      end in
           Throw (Error (js_or (prop err "detail") (JStr "Erro no chat")))
      else match res_json res with
           | Return data => Return (prop data "reply")
           | Throw e => Throw e
           end
  end.

(** The part of [handleSend] after the [await], with the [newMessages] it
    closed over; the [finally] block runs last. *)
Definition handleSend_settled (newMessages : list Message)
    (settled : fetch_outcome) (st : State) : State :=
  setLoading false
    (match reply_of settled with
     | Return reply =>
         setMessages (newMessages ++ [{| role := "assistant"; content := reply |}]) st
     | Throw e =>
         setMessages (newMessages
                      ++ [{| role := "assistant";
                             content := JStr ("❌ Erro: " ++ e) |}]) st
     end).

Section Handlers.

Variable trim : string → string.

(** The part of [handleSend] up to the [fetch]: the new state and, unless
    the guard returned, the request. *)
Definition handleSend (ctx : jsval) (st : State) : State * option ChatRequest :=
  let userMsg := trim (input st) in
  if negb (truthy (JStr userMsg)) || loading st then (st, None)
  else
    let newMessages :=
      (messages st ++ [{| role := "user"; content := JStr userMsg |}])%list in
    (setLoading true (setInput "" (setMessages newMessages st)),
     Some {| context := ctx; history := newMessages |}).

(** A whole exchange: the send and, when a request went out, its
    settlement. *)
Definition exchange (ctx : jsval) (settled : fetch_outcome) (st : State) : State :=
  match handleSend ctx st with
  | (st1, Some req) => handleSend_settled (history req) settled st1
  | (st1, None) => st1
  end.

End Handlers.

End ChatPanel.

(** Stage 2 failed with the detail ["audio ilegível"]. *)
Definition sample_failed2 : System :=
  {| app := {| view := "error"; error := "audio ilegível";
               sessionData := <["relatorio_descoberta" := JStr "Relatório..."]>
                                empty_session |};
     inflight := [] |}.

(** The events of a run up to the call of stage 3b, and the state they
    lead to. *)
Definition sample_events_3b : list event :=
  [ User (SubmitAudio sample_file);
    Settles 0 (success {[ "relatorio_descoberta" := JStr "Relatório..." ]});
    User ApproveModulo2;
    Settles 0 (success {[ "bpmn_xml_as_is" := JStr "<definitions/>" ]});
    User ApproveModulo3a;
    Settles 0 (success {[ "consultoria" := JStr "1. ... 2. ... 3. ..." ]});
    User (ApproveModulo3b "aprovo 1 e 3") ].

Definition sample_running3b : System :=
  default initial (run trim_ascii sample_events_3b initial ≫= last).

(** An instance of the host's [toLowerCase] for ASCII texts. *)
Definition lower_ascii (c : ascii) : ascii :=
  let n := nat_of_ascii c in
  if (65 <=? n)%nat && (n <=? 90)%nat then ascii_of_nat (n + 32) else c.

Fixpoint toLowerCase_ascii (s : string) : string :=
  match s with
  | EmptyString => EmptyString
  | String c s' => String (lower_ascii c) (toLowerCase_ascii s')
  end.

(** * Properties *)

(** ** Reading merged records *)

Lemma lookup_spread (prev updates : gmap string jsval) (k : string) :
  spread prev updates !! k
  = match updates !! k with Some v => Some v | None => prev !! k end.
Proof.
  unfold spread. rewrite lookup_union.
  destruct (updates !! k), (prev !! k); reflexivity.
Qed.

Lemma prop_spread (prev updates : gmap string jsval) (k : string) :
  prop (spread prev updates) k
  = match updates !! k with Some v => v | None => prop prev k end.
Proof.
  unfold prop. rewrite lookup_spread. destruct (updates !! k); reflexivity.
Qed.

Lemma lookup_JSON_stringify (o : gmap string jsval) (k : string) :
  JSON_stringify o !! k
  = match o !! k with
    | Some v => if is_undefined v then None else Some v
    | None => None
    end.
Proof.
  unfold JSON_stringify.
  destruct (o !! k) as [v|] eqn:Hk.
  - destruct (is_undefined v) eqn:Hv.
    + apply map_lookup_filter_None. right. intros x Hx. simpl.
      rewrite Hk in Hx. injection Hx as <-. rewrite Hv. discriminate.
    + apply map_lookup_filter_Some. split; [exact Hk | exact Hv].
  - apply map_lookup_filter_None. left. exact Hk.
Qed.

Lemma updateSession_run (updates : gmap string jsval) (st : App) :
  updateSession updates st
  = (Return tt, {| view := view st; error := error st;
                   sessionData := spread (sessionData st) updates |}).
Proof. reflexivity. Qed.

(** ** The handlers, run *)

Lemma settled_success (h : handler) (json : gmap string jsval) (st : App) :
  settled_of h (success json) st
  = (Return tt,
     {| view := view_of (AwaitingReview (stage_of h)); error := error st;
        sessionData := spread (sessionData st) (merged_on_success h json) |}).
Proof. destruct h; reflexivity. Qed.

(** Rewriting under a handler's own name makes unification unfold the
    handlers against each other; go through [settled_of]. *)
Ltac fold_settled :=
  try change (handleUpload_settled ?a ?b) with (settled_of HUpload a b) in *;
  try change (handleTextUpload_settled ?a ?b) with (settled_of HTextUpload a b) in *;
  try change (handleModulo2_settled ?a ?b) with (settled_of HModulo2 a b) in *;
  try change (handleModulo3a_settled ?a ?b) with (settled_of HModulo3a a b) in *;
  try change (handleModulo3b_settled ?a ?b) with (settled_of HModulo3b a b) in *;
  try change (handleModulo4_settled ?a ?b) with (settled_of HModulo4 a b) in *.

Lemma succeeded_success (settled : fetch_outcome) :
  succeeded settled = true → ∃ json, settled = success json.
Proof.
  destruct settled as [[[] [json|e]]|e]; simpl; try discriminate.
  intros _. exists json. reflexivity.
Qed.

Lemma settled_failure (h : handler) (settled : fetch_outcome) (st : App) :
  succeeded settled = false →
  ∃ message,
    settled_of h settled st
    = (Return tt, {| view := "error"; error := message;
                     sessionData := sessionData st |}).
Proof.
  destruct h, settled as [[[] [json|e]]|e]; simpl; intros Hs;
    try discriminate Hs; eexists; reflexivity.
Qed.

Lemma pipeline_state_view (st : App) (p : PipelineState) :
  pipeline_state st = Some p → view st = view_of p.
Proof.
  unfold pipeline_state. cbv zeta.
  repeat match goal with
         | |- context [String.eqb (view st) ?x] =>
             destruct (String.eqb (view st) x) eqn:?;
             [ intros [= <-]; apply String.eqb_eq; assumption | ]
         end.
  intros H; discriminate H.
Qed.

Lemma pipeline_state_error (v e : string) (sd : gmap string jsval) :
  v = "error" →
  pipeline_state {| view := v; error := e; sessionData := sd |} = Some (Failed e).
Proof. intros ->. reflexivity. Qed.

(** ** Calling a handler *)

Lemma invoke_stage (a : action) (h : handler) (s : System) :
  handler_of a = Some h →
  pipeline_state (app (invoke a s)) = Some (Running (stage_of h))
  ∧ ∃ req, inflight (invoke a s)
           = (inflight s ++ [{| caller := h; request := req |}])%list.
Proof.
  destruct a; intros [= <-]; (split; [reflexivity | eexists; reflexivity]).
Qed.

Lemma invoke_session (a : action) (s : System) :
  sessionData (app (invoke a s))
  = match a with
    | ApproveModulo3b propostas =>
        spread (sessionData (app s)) {[ "propostas_aprovadas" := JStr propostas ]}
    | Reset => empty_session
    | _ => sessionData (app s)
    end.
Proof. destruct a; reflexivity. Qed.

Lemma invoke_Reset (s : System) :
  invoke Reset s = {| app := initial_app; inflight := inflight s |}.
Proof. reflexivity. Qed.

Lemma settle_Some (n : nat) (settled : fetch_outcome) (s s' : System) :
  settle n settled s = Some s' →
  ∃ c, inflight s !! n = Some c
       ∧ s' = {| app := (settled_of (caller c) settled (app s)).2;
                 inflight := delete n (inflight s) |}.
Proof.
  unfold settle. destruct (inflight s !! n) as [c|]; [ | intros H; discriminate H].
  intros [= <-]. exists c. split; reflexivity.
Qed.

(** ** Merged records and the invariant *)

Ltac split_notin H :=
  rewrite ?not_elem_of_cons in H; destruct_and?.

Ltac solve_notin :=
  rewrite ?not_elem_of_cons; repeat split; try assumption; apply not_elem_of_nil.

Lemma merged_on_success_outside (h : handler) (json : gmap string jsval) (k : string) :
  k ∉ written_by h → merged_on_success h json !! k = None.
Proof.
  intros Hk. destruct h; simpl in Hk |- *; split_notin Hk;
    rewrite ?lookup_insert_ne by congruence;
    solve [apply lookup_empty | apply lookup_singleton_ne; congruence].
Qed.

Lemma merged_aviso_Modulo2 (json : gmap string jsval) :
  merged_on_success HModulo2 json !! "aviso_bizagi" = Some (prop json "aviso_bizagi").
Proof. reflexivity. Qed.

Lemma merged_aviso_Modulo3b (json : gmap string jsval) :
  merged_on_success HModulo3b json !! "aviso_bizagi" = Some (prop json "aviso_bizagi").
Proof. reflexivity. Qed.

Lemma keeps_outside_spread (w w' : list string) (sd u : gmap string jsval) :
  keeps_outside w sd →
  (∀ k, k ∈ w → k ∈ w') →
  (∀ k, k ∉ w' → u !! k = None) →
  keeps_outside w' (spread sd u).
Proof.
  intros Hsd Hw Hu k Hk. rewrite lookup_spread, (Hu k Hk).
  apply Hsd. intros Hin. apply Hk, Hw, Hin.
Qed.

Lemma keeps_outside_empty (w : list string) : keeps_outside w empty_session.
Proof. intros k _. reflexivity. Qed.

Lemma proposals_chosen_spread (sd u : gmap string jsval) :
  proposals_chosen sd →
  u !! "propostas_aprovadas" = None →
  proposals_chosen (spread sd u).
Proof.
  intros (p & Hp & Hsd) Hu. exists p. split; [exact Hp | ].
  rewrite lookup_spread, Hu. exact Hsd.
Qed.

Lemma proposals_chosen_not_empty (sd : gmap string jsval) :
  proposals_chosen sd → sd ≠ empty_session.
Proof.
  intros (p & Hp & Hsd) ->. apply Hp.
  change (empty_session !! "propostas_aprovadas") with (Some (JStr "")) in Hsd.
  injection Hsd as <-. reflexivity.
Qed.

Lemma spread_empty_back (w : list string) (sd u : gmap string jsval) :
  keeps_outside w sd →
  (∀ k, k ∈ w → u !! k = None) →
  spread sd u = empty_session →
  sd = empty_session.
Proof.
  intros Hsd Hu Heq. apply map_eq. intros k.
  destruct (decide (k ∈ w)) as [Hk|Hk].
  - rewrite <- Heq, lookup_spread, (Hu k Hk). reflexivity.
  - apply Hsd, Hk.
Qed.

(** ** The reachable states *)

Lemma view_of_state (p : PipelineState) (v : string) :
  view_of p = v →
  match p with
  | Idle => v = "upload"
  | Running S1 => v = "modulo1"
  | AwaitingReview S1 => v = "review1"
  | Running S2 => v = "modulo2"
  | AwaitingReview S2 => v = "review2"
  | Running S3a => v = "modulo3a"
  | AwaitingReview S3a => v = "review3a"
  | Running S3b => v = "modulo3b"
  | AwaitingReview S3b => v = "review3b"
  | Running S4 => v = "modulo4"
  | AwaitingReview S4 => v = "final"
  | Failed _ => v = "error"
  end.
Proof. intros <-. destruct p as [ | [] | [] | m]; reflexivity. Qed.

Lemma calls_at_lookup (p : PipelineState) (calls : list Call) (n : nat) (c : Call) :
  calls_at p calls →
  calls !! n = Some c →
  ∃ st, p = Running st ∧ calls = [c] ∧ n = 0%nat ∧ stage_of (caller c) = st.
Proof.
  intros Hc Hn.
  destruct p as [ | st | st | m]; simpl in Hc;
    try (rewrite Hc in Hn; discriminate Hn).
  destruct Hc as (c' & Hc' & Hst). rewrite Hc' in Hn.
  destruct n as [|n]; [ | discriminate Hn]. injection Hn as ->.
  exists st. repeat split; assumption.
Qed.

Lemma Inv_initial : Inv initial.
Proof. exists Idle. repeat split. Qed.

Section Reachable.

Variable trim : string → string.

(** All that is used of [trim]: it leaves the empty string empty. *)
Hypothesis trim_empty : trim "" = "".

Lemma enabled_proposals (v propostas : string) :
  enabled trim v (ApproveModulo3b propostas) = true → propostas ≠ "".
Proof.
  intros He ->. unfold enabled in He. rewrite trim_empty in He.
  simpl in He. rewrite andb_false_r in He. discriminate He.
Qed.

(** Each control is shown in one view only; reset in the review views,
    the final view and the error view. *)
Lemma enabled_view (v : string) (a : action) :
  enabled trim v a = true →
  match a with
  | SubmitAudio _ | SubmitText _ => v = "upload"
  | ApproveModulo2 => v = "review1"
  | ApproveModulo3a => v = "review2"
  | ApproveModulo3b _ => v = "review3a"
  | ApproveModulo4 => v = "review3b"
  | Reset => v ∈ ["review1"; "review2"; "review3a"; "review3b"; "final"; "error"]
  end.
Proof.
  destruct a; unfold enabled, shows_UploadPage, shows_error; intros He;
    repeat (rewrite ?andb_true_iff, ?orb_true_iff, ?String.eqb_eq in He);
    try (destruct_and?; assumption).
  rewrite !elem_of_cons. tauto.
Qed.

Lemma Inv_invoke (a : action) (s : System) :
  Inv s → enabled trim (view (app s)) a = true → Inv (invoke a s).
Proof.
  intros (p & Hp & Hc & Hs) He.
  pose proof (enabled_view _ _ He) as Hv.
  pose proof (view_of_state p _ (eq_sym (pipeline_state_view _ _ Hp))) as Hpv.
  destruct (handler_of a) as [h|] eqn:Hh.
  - destruct (invoke_stage a h s Hh) as (Hp' & req & Hc').
    exists (Running (stage_of h)). split; [exact Hp' | split].
    + exists {| caller := h; request := req |}. split; [ | reflexivity].
      rewrite Hc'.
      destruct a; try discriminate Hh;
        destruct p as [ | [] | [] | m]; rewrite Hpv in Hv;
        try discriminate Hv; simpl in Hc; rewrite Hc; reflexivity.
    + rewrite invoke_session.
      destruct a; try discriminate Hh; injection Hh as <-;
        destruct p as [ | [] | [] | m]; rewrite Hpv in Hv;
        try discriminate Hv; simpl in Hs |- *; try exact Hs.
      exists propostas. split; [exact (enabled_proposals _ _ He) | ].
      rewrite lookup_spread. reflexivity.
  - destruct a; try discriminate Hh. rewrite invoke_Reset.
    replace (inflight s) with (@nil Call); [exact Inv_initial | ].
    destruct p as [ | [] | [] | m]; rewrite Hpv in Hv; simpl in Hc;
      try (symmetry; exact Hc); exfalso;
      rewrite !elem_of_cons, elem_of_nil in Hv; intuition discriminate.
Qed.

Lemma Inv_settle (n : nat) (settled : fetch_outcome) (s s' : System) :
  Inv s → settle n settled s = Some s' → Inv s'.
Proof.
  intros (p & Hp & Hc & Hs) Hstep.
  apply settle_Some in Hstep as (c & Hn & ->).
  destruct (calls_at_lookup _ _ _ _ Hc Hn) as (st & -> & Hcalls & -> & Hst).
  rewrite Hcalls. change (delete 0%nat [c]) with (@nil Call).
  destruct (succeeded settled) eqn:Hok.
  - apply succeeded_success in Hok as (json & ->).
    rewrite settled_success.
    exists (AwaitingReview st). rewrite Hst. split; [ | split; [reflexivity | ]].
    { destruct st; reflexivity. }
    simpl sessionData.
    destruct (caller c); simpl in Hst; subst st; simpl in Hs;
      cbn [session_at stage_of].
    + rewrite Hs. apply (keeps_outside_spread ["relatorio_descoberta"]);
        [apply keeps_outside_empty | tauto | ].
      intros k Hk. apply merged_on_success_outside, Hk.
    + rewrite Hs. apply (keeps_outside_spread ["relatorio_descoberta"]);
        [apply keeps_outside_empty | tauto | ].
      intros k Hk. apply merged_on_success_outside, Hk.
    + apply (keeps_outside_spread ["relatorio_descoberta"]); [exact Hs | | ].
      * intros k Hk. apply elem_of_cons in Hk as [-> | Hk];
          [constructor | apply elem_of_nil in Hk; destruct Hk].
      * intros k Hk. apply merged_on_success_outside. simpl.
        split_notin Hk. solve_notin.
    + exact I.
    + apply proposals_chosen_spread; [exact Hs | reflexivity].
    + apply proposals_chosen_spread; [exact Hs | reflexivity].
  - destruct (settled_failure (caller c) settled (app s) Hok) as (m & ->).
    exists (Failed m). repeat split.
Qed.

Lemma Inv_step (e : event) (s s' : System) :
  Inv s → step trim e s = Some s' → Inv s'.
Proof.
  destruct e as [a | n settled]; simpl.
  - destruct (enabled trim (view (app s)) a) eqn:He; [ | intros _ H; discriminate H].
    intros HI [= <-]. apply Inv_invoke; assumption.
  - apply Inv_settle.
Qed.

Lemma reachable_Inv (s : System) : reachable trim s → Inv s.
Proof.
  induction 1 as [ | s e s' _ IH Hstep]; [exact Inv_initial | ].
  exact (Inv_step e s s' IH Hstep).
Qed.

End Reachable.

(** * The claims *)

(** C5: merging a partial update [u] into the record replaces, wholesale,
    exactly the fields present in [u] and leaves every other field as it
    was; in particular merging [{relatorio_descoberta: "X"}] after
    [{bpmn_xml_as_is: "Y"}] yields a record with both fields set. *)
Theorem C5_updateSession_merges (u : gmap string jsval) (st : App) :
  (∀ k, sessionData (updateSession u st).2 !! k
        = match u !! k with Some v => Some v | None => sessionData st !! k end)
  ∧ (let st1 := (updateSession {[ "bpmn_xml_as_is" := JStr "Y" ]} st).2 in
     let st2 := (updateSession {[ "relatorio_descoberta" := JStr "X" ]} st1).2 in
     prop (sessionData st2) "relatorio_descoberta" = JStr "X"
     ∧ prop (sessionData st2) "bpmn_xml_as_is" = JStr "Y").
Proof.
  split.
  - intros k. rewrite updateSession_run. apply lookup_spread.
  - cbv zeta. rewrite !updateSession_run. simpl sessionData.
    rewrite !prop_spread. split; reflexivity.
Qed.

(** C9: the active step is a function of the view alone, and it buckets the
    pipeline states into four steps: stage 1 is step 0, stage 2 is step 1,
    stages 3a and 3b are step 2, stage 4 with the final review is step 3. *)
Theorem C9_getActiveStep_buckets (p : PipelineState) :
  getActiveStep (view_of p)
  = match p with
    | Running S1 | AwaitingReview S1 => 0
    | Running S2 | AwaitingReview S2 => 1
    | Running S3a | AwaitingReview S3a | Running S3b | AwaitingReview S3b => 2
    | Running S4 | AwaitingReview S4 => 3
    | Idle | Failed _ => -1
    end.
Proof. destruct p as [ | [] | [] | m]; reflexivity. Qed.

(** C10: a success of stage 2 or of stage 3b always overwrites
    [aviso_bizagi] with what the response carries, [undefined] when the
    response has no notice: a stage 3b response without the notice clears
    the notice that stage 2 stored. *)
Theorem C10_aviso_overwritten (json json' : gmap string jsval) (notice : string)
    (st : App) :
  prop (sessionData (handleModulo2_settled (success json) st).2) "aviso_bizagi"
  = prop json "aviso_bizagi"
  ∧ prop (sessionData (handleModulo3b_settled (success json) st).2) "aviso_bizagi"
    = prop json "aviso_bizagi"
  ∧ (let st2 := (handleModulo2_settled
                   (success (<["aviso_bizagi" := JStr notice]> json)) st).2 in
     let st3b := (handleModulo3b_settled
                    (success (delete "aviso_bizagi" json')) st2).2 in
     prop (sessionData st2) "aviso_bizagi" = JStr notice
     ∧ prop (sessionData st3b) "aviso_bizagi" = JUndefined).
Proof.
  cbv zeta.
  fold_settled. rewrite !settled_success.
  cbn [sessionData snd]. rewrite !prop_spread, !merged_aviso_Modulo2, !merged_aviso_Modulo3b.
  unfold prop. rewrite lookup_insert_eq, lookup_delete_eq.
  repeat split.
Qed.

(** C7: the request of stage 2 carries [relatorio_descoberta] of the record
    and nothing else; that of stage 3a carries [relatorio_descoberta] and
    [bpmn_xml_as_is]; that of stage 4 carries [bpmn_xml_to_be] and
    [relatorio_descoberta]; no other field of the record is sent. *)
Theorem C7_requests_carry_subsets (s : System) :
  (∃ o, inflight (invoke ApproveModulo2 s)
        = (inflight s ++ [{| caller := HModulo2;
                             request := {| url := "/api/modulo2";
                                           body := JsonBody o |} |}])%list
        ∧ carries o (sessionData (app s)) ["relatorio_descoberta"])
  ∧ (∃ o, inflight (invoke ApproveModulo3a s)
          = (inflight s ++ [{| caller := HModulo3a;
                               request := {| url := "/api/modulo3a";
                                             body := JsonBody o |} |}])%list
          ∧ carries o (sessionData (app s))
              ["relatorio_descoberta"; "bpmn_xml_as_is"])
  ∧ (∃ o, inflight (invoke ApproveModulo4 s)
          = (inflight s ++ [{| caller := HModulo4;
                               request := {| url := "/api/modulo4";
                                             body := JsonBody o |} |}])%list
          ∧ carries o (sessionData (app s))
              ["bpmn_xml_to_be"; "relatorio_descoberta"]).
Proof.
  repeat split; (eexists; split; [reflexivity | ]); intros k;
    rewrite lookup_JSON_stringify.
  - destruct (decide (k = "relatorio_descoberta")) as [-> | H1]; [reflexivity | ].
    rewrite lookup_singleton_ne by congruence.
    rewrite bool_decide_eq_false_2 by solve_notin. reflexivity.
  - destruct (decide (k = "relatorio_descoberta")) as [-> | H1]; [reflexivity | ].
    destruct (decide (k = "bpmn_xml_as_is")) as [-> | H2]; [reflexivity | ].
    rewrite !lookup_insert_ne, lookup_empty by congruence.
    rewrite bool_decide_eq_false_2 by solve_notin. reflexivity.
  - destruct (decide (k = "bpmn_xml_to_be")) as [-> | H1]; [reflexivity | ].
    destruct (decide (k = "relatorio_descoberta")) as [-> | H2]; [reflexivity | ].
    rewrite !lookup_insert_ne, lookup_empty by congruence.
    rewrite bool_decide_eq_false_2 by solve_notin. reflexivity.
Qed.

(** C2: when the call of a stage fails while that stage is running, the
    state becomes failed with a message and the record is exactly the
    record [r] of the running state: nothing is merged. *)
Theorem C2_failure_keeps_record (stage : stageId) (r : gmap string jsval)
    (s : System) (n : nat) (c : Call) (settled : fetch_outcome) :
  pipeline_state (app s) = Some (Running stage) →
  sessionData (app s) = r →
  inflight s !! n = Some c →
  stage_of (caller c) = stage →
  succeeded settled = false →
  ∃ message s',
    settle n settled s = Some s'
    ∧ pipeline_state (app s') = Some (Failed message)
    ∧ sessionData (app s') = r.
Proof.
  intros _ Hr Hn _ Hfail.
  destruct (settled_failure (caller c) settled (app s) Hfail) as (message & Hrun).
  exists message. eexists. unfold settle. rewrite Hn, Hrun.
  split; [reflexivity | split; [reflexivity | exact Hr]].
Qed.

(** C3: submitting a non-empty proposal text [p] at the review of stage 3a
    merges [propostas_aprovadas = p] into the record at once, while the
    call of stage 3b is pending; the request carries [relatorio_descoberta],
    [consultoria] and [propostas_aprovadas = p]; and after the call failed
    [propostas_aprovadas] is still [p]. *)
Theorem C3_proposals_kept_on_failure (s : System) (p : string)
    (settled : fetch_outcome) :
  p ≠ "" →
  pipeline_state (app s) = Some (AwaitingReview S3a) →
  succeeded settled = false →
  let s1 := invoke (ApproveModulo3b p) s in
  pipeline_state (app s1) = Some (Running S3b)
  ∧ prop (sessionData (app s1)) "propostas_aprovadas" = JStr p
  ∧ (∃ o, inflight s1
          = (inflight s ++ [{| caller := HModulo3b;
                               request := {| url := "/api/modulo3b";
                                             body := JsonBody o |} |}])%list
          ∧ ∀ k, o !! k
                 = if bool_decide (k = "propostas_aprovadas") then Some (JStr p)
                   else if bool_decide (k ∈ ["relatorio_descoberta"; "consultoria"])
                        then wire (prop (sessionData (app s)) k)
                        else None)
  ∧ ∃ message s2,
      settle (length (inflight s)) settled s1 = Some s2
      ∧ pipeline_state (app s2) = Some (Failed message)
      ∧ prop (sessionData (app s2)) "propostas_aprovadas" = JStr p.
Proof.
  intros _ _ Hfail s1.
  assert (prop (sessionData (app s1)) "propostas_aprovadas" = JStr p) as Hp.
  { unfold s1. rewrite invoke_session, prop_spread. reflexivity. }
  split; [reflexivity | split; [exact Hp | split]].
  - eexists. split; [reflexivity | ]. intros k. rewrite lookup_JSON_stringify.
    destruct (decide (k = "relatorio_descoberta")) as [-> | H1]; [reflexivity | ].
    destruct (decide (k = "consultoria")) as [-> | H2]; [reflexivity | ].
    destruct (decide (k = "propostas_aprovadas")) as [-> | H3]; [reflexivity | ].
    rewrite !lookup_insert_ne, lookup_empty by congruence.
    rewrite (bool_decide_eq_false_2 (k = _)) by assumption.
    rewrite bool_decide_eq_false_2 by solve_notin. reflexivity.
  - destruct (invoke_stage (ApproveModulo3b p) HModulo3b s eq_refl)
      as (_ & req & Hcalls).
    destruct (settled_failure HModulo3b settled (app s1) Hfail) as (message & Hrun).
    exists message. eexists. unfold settle. fold s1 in Hcalls.
    rewrite Hcalls, (list_lookup_middle _ [] _ _ eq_refl).
    cbn [caller]. rewrite Hrun.
    split; [reflexivity | split; [reflexivity | exact Hp]].
Qed.

Section LinearRun.

Variable trim : string → string.

Lemma run_cons (e : event) (events : list event) (s s' : System) :
  step trim e s = Some s' →
  run trim (e :: events) s = (cons s) <$> run trim events s'.
Proof.
  intros Hstep. simpl. rewrite Hstep.
  destruct (run trim events s'); reflexivity.
Qed.

Lemma step_User (a : action) (s : System) :
  enabled trim (view (app s)) a = true →
  step trim (User a) s = Some (invoke a s).
Proof. intros He. simpl. rewrite He. reflexivity. Qed.

Lemma step_ApproveModulo3b (propostas : string) (s : System) :
  view (app s) = "review3a" →
  truthy (JStr (trim propostas)) = true →
  step trim (User (ApproveModulo3b propostas)) s
  = Some (invoke (ApproveModulo3b propostas) s).
Proof.
  intros Hv Hp. apply step_User. unfold enabled. rewrite Hv, Hp. reflexivity.
Qed.

(** C1: on every linear run (a submission of audio or of text, then the
    four approvals, each call succeeding) the states visited are idle,
    running 1, review 1, running 2, review 2, running 3a, review 3a,
    running 3b, review 3b, running 4 and the final review, in this
    order; each running state has exactly the call of its own stage in
    flight and each review state has none. *)
Theorem C1_linear_run_visits_in_order (submit : action) (propostas : string)
    (json1 json2 json3a json3b json4 : gmap string jsval) :
  enabled trim "upload" submit = true →
  truthy (JStr (trim propostas)) = true →
  map observe <$> run trim (linear_run submit propostas
                              json1 json2 json3a json3b json4) initial
  = Some [ (Some Idle, []);
           (Some (Running S1), [S1]); (Some (AwaitingReview S1), []);
           (Some (Running S2), [S2]); (Some (AwaitingReview S2), []);
           (Some (Running S3a), [S3a]); (Some (AwaitingReview S3a), []);
           (Some (Running S3b), [S3b]); (Some (AwaitingReview S3b), []);
           (Some (Running S4), [S4]); (Some (AwaitingReview S4), []) ].
Proof.
  intros Hsubmit Hp. unfold linear_run.
  destruct submit; try (simpl in Hsubmit; discriminate Hsubmit).
  all: erewrite run_cons by (apply step_User; exact Hsubmit).
  all: do 5 (erewrite run_cons by reflexivity).
  all: erewrite run_cons by (apply step_ApproveModulo3b; [reflexivity | exact Hp]).
  all: do 3 (erewrite run_cons by reflexivity).
  all: reflexivity.
Qed.

End LinearRun.

Lemma empty_session_fields (k : string) :
  empty_session !! k
  = if bool_decide (k ∈ text_fields) then Some (JStr "")
    else if bool_decide (k ∈ validation_fields) then Some JNull
    else None.
Proof.
  destruct (bool_decide (k ∈ text_fields)) eqn:Ht.
  - apply bool_decide_eq_true_1 in Ht. unfold text_fields in Ht.
    rewrite !elem_of_cons, elem_of_nil in Ht.
    destruct Ht as [-> | [-> | [-> | [-> | [-> | [-> | [-> | []]]]]]]]; reflexivity.
  - apply bool_decide_eq_false_1 in Ht.
    destruct (bool_decide (k ∈ validation_fields)) eqn:Hv.
    + apply bool_decide_eq_true_1 in Hv. unfold validation_fields in Hv.
      rewrite !elem_of_cons, elem_of_nil in Hv.
      destruct Hv as [-> | [-> | []]]; reflexivity.
    + apply bool_decide_eq_false_1 in Hv.
      unfold text_fields in Ht. unfold validation_fields in Hv.
      split_notin Ht. split_notin Hv. unfold empty_session.
      rewrite !lookup_insert_ne by congruence. apply lookup_empty.
Qed.

Section Resets.

Variable trim : string → string.
Hypothesis trim_empty : trim "" = "".

(** C4, as the code has it: no call is tagged and no response is
    discarded; instead the reset control is shown only in the review
    views, the final view and the error view, where no call is pending.
    In a reachable state a reset is refused while a stage runs; where it
    is accepted no call is in flight, the result is the initial state,
    and no response can arrive after it. *)
Theorem C4_reset_only_without_pending_call (s : System) :
  reachable trim s →
  (∀ stage, pipeline_state (app s) = Some (Running stage) →
            step trim (User Reset) s = None)
  ∧ (∀ s', step trim (User Reset) s = Some s' →
           inflight s = []
           ∧ s' = initial
           ∧ ∀ n settled, step trim (Settles n settled) s' = None).
Proof.
  intros Hreach.
  destruct (reachable_Inv trim trim_empty s Hreach) as (p & Hp & Hc & _).
  split.
  - intros stage Hst. apply pipeline_state_view in Hst. cbn [step].
    rewrite Hst. destruct stage; reflexivity.
  - intros s'. cbn [step].
    destruct (enabled trim (view (app s)) Reset) eqn:He; [ | intros H; discriminate H].
    intros [= <-].
    assert (inflight s = []) as Hnil.
    { pose proof (enabled_view trim _ _ He) as Hv.
      pose proof (view_of_state p _ (eq_sym (pipeline_state_view _ _ Hp))) as Hpv.
      destruct p as [ | [] | [] | m]; rewrite Hpv in Hv; simpl in Hc;
        try exact Hc; exfalso;
        rewrite !elem_of_cons, elem_of_nil in Hv; intuition discriminate. }
    rewrite Hnil. repeat split.
Qed.

(** C6: in every reachable state, whatever the record holds, a reset
    yields the idle state and the initial record, in which every text
    field is empty and both validation fields are [null]; and a step
    other than a reset that ends with the initial record started with
    it: only a reset empties the record. *)
Theorem C6_only_reset_empties_record (s : System) :
  reachable trim s →
  (pipeline_state (app (invoke Reset s)) = Some Idle
   ∧ sessionData (app (invoke Reset s)) = empty_session
   ∧ ∀ k, empty_session !! k
          = if bool_decide (k ∈ text_fields) then Some (JStr "")
            else if bool_decide (k ∈ validation_fields) then Some JNull
            else None)
  ∧ (∀ e s', step trim e s = Some s' →
             e ≠ User Reset →
             sessionData (app s') = empty_session →
             sessionData (app s) = empty_session).
Proof.
  intros Hreach.
  split; [split; [reflexivity | split; [reflexivity | apply empty_session_fields]] | ].
  destruct (reachable_Inv trim trim_empty s Hreach) as (p & Hp & Hc & Hs).
  intros [a | n settled] s' Hstep Hne Hempty; cbn [step] in Hstep.
  - destruct (enabled trim (view (app s)) a) eqn:He; [ | discriminate Hstep].
    injection Hstep as <-. rewrite invoke_session in Hempty.
    destruct a; try exact Hempty; [ | congruence].
    exfalso. revert Hempty. apply proposals_chosen_not_empty.
    exists propostas. split; [exact (enabled_proposals trim trim_empty _ _ He) | ].
    rewrite lookup_spread. reflexivity.
  - apply settle_Some in Hstep as (c & Hn & ->).
    destruct (calls_at_lookup _ _ _ _ Hc Hn) as (st & -> & _ & _ & Hst).
    destruct (succeeded settled) eqn:Hok.
    + apply succeeded_success in Hok as (json & ->).
      rewrite settled_success in Hempty. cbn [app sessionData snd] in Hempty.
      destruct (caller c) eqn:Hcaller; simpl in Hst; subst st; simpl in Hs.
      * exact Hs.
      * exact Hs.
      * apply (spread_empty_back _ _ _ Hs) in Hempty; [exact Hempty | ].
        intros k Hk. apply merged_on_success_outside.
        apply elem_of_cons in Hk as [-> | Hk];
          [ | apply elem_of_nil in Hk; destruct Hk].
        simpl. rewrite !not_elem_of_cons, elem_of_nil. intuition discriminate.
      * apply (spread_empty_back _ _ _ Hs) in Hempty; [exact Hempty | ].
        intros k Hk. apply merged_on_success_outside.
        rewrite !elem_of_cons, elem_of_nil in Hk. simpl.
        rewrite !not_elem_of_cons, elem_of_nil.
        destruct Hk as [-> | [-> | [-> | [-> | []]]]]; intuition discriminate.
      * exfalso. revert Hempty. apply proposals_chosen_not_empty.
        apply proposals_chosen_spread; [exact Hs | reflexivity].
      * exfalso. revert Hempty. apply proposals_chosen_not_empty.
        apply proposals_chosen_spread; [exact Hs | reflexivity].
    + destruct (settled_failure (caller c) settled (app s) Hok) as (m & Hrun).
      rewrite Hrun in Hempty. exact Hempty.
Qed.

End Resets.

(** X6: while the view is a processing view, no control bound to a handler is
    rendered: every user action is refused. *)
Lemma processing_shows_no_control (trim : string → string) (v : string) (a : action) :
  isProcessing v = true → enabled trim v a = false.
Proof.
  intros Hv. apply bool_decide_eq_true_1 in Hv.
  rewrite !elem_of_cons, elem_of_nil in Hv.
  destruct Hv as [-> | [-> | [-> | [-> | [-> | []]]]]]; destruct a; reflexivity.
Qed.

(** ** A response that arrives after a reset *)

(** C4, as stated, fails on the handlers: [handleReset] called while the
    call of stage 1 is pending leaves that call pending, and its response,
    arriving later, is merged into the fresh record and moves the view to
    the review of stage 1. *)
Lemma C4_stale_response_is_applied :
  let s1 := invoke Reset sample_running1 in
  let arrival := success {[ "relatorio_descoberta" := JStr "Relatório..." ]} in
  pipeline_state (app sample_running1) = Some (Running S1)
  ∧ app s1 = initial_app
  ∧ ∃ s2, settle 0 arrival s1 = Some s2
          ∧ pipeline_state (app s2) = Some (AwaitingReview S1)
          ∧ prop (sessionData (app s2)) "relatorio_descoberta" = JStr "Relatório..."
          ∧ pipeline_state (app s2) ≠ pipeline_state (app s1)
          ∧ sessionData (app s2) ≠ sessionData (app s1).
Proof.
  cbv zeta. split; [reflexivity | split; [reflexivity | ]].
  eexists. split; [reflexivity | ].
  split; [reflexivity | split; [reflexivity | split]].
  - intros H. discriminate H.
  - intros H.
    apply (f_equal (λ sd, sd !! "relatorio_descoberta")) in H.
    vm_compute in H. discriminate H.
Qed.

(** ** The message of a rejected call *)

Lemma settled_rejected (h : handler) (err : gmap string jsval) (st : App) :
  settled_of h (rejected err) st
  = (Return tt,
     {| view := "error";
        error := Error (js_or (prop err "detail") (JStr (default_message h)));
        sessionData := sessionData st |}).
Proof. destruct h; reflexivity. Qed.

(** With a JSON error body: a non-empty [detail] text is the message. *)
Lemma rejected_with_detail (h : handler) (err : gmap string jsval) (d : string)
    (st : App) :
  err !! "detail" = Some (JStr d) →
  d ≠ "" →
  settled_of h (rejected err) st
  = (Return tt, {| view := "error"; error := d; sessionData := sessionData st |}).
Proof.
  intros Hd Hne. rewrite settled_rejected. unfold prop. rewrite Hd. simpl.
  destruct d; [contradiction | reflexivity].
Qed.

(** With a JSON error body that has no [detail], or [null], or an empty
    text: the default message of the handler. *)
Lemma rejected_without_detail (h : handler) (err : gmap string jsval) (st : App) :
  err !! "detail" = None ∨ err !! "detail" = Some JNull
  ∨ err !! "detail" = Some (JStr "") →
  settled_of h (rejected err) st
  = (Return tt, {| view := "error"; error := default_message h;
                   sessionData := sessionData st |}).
Proof.
  intros Hd. rewrite settled_rejected. unfold prop.
  destruct Hd as [-> | [-> | ->]]; destruct h; reflexivity.
Qed.

(** The example of the specification: stage 2 rejected with the detail
    ["audio ilegível"]. *)
Example rejected_stage2_example :
  ∃ s', settle 0 (rejected {[ "detail" := JStr "audio ilegível" ]}) sample_running2
        = Some s'
        ∧ pipeline_state (app s') = Some (Failed "audio ilegível")
        ∧ prop (sessionData (app s')) "bpmn_xml_as_is" = JStr "".
Proof. eexists. repeat split. Qed.

(** C8, where the code departs from it: a call of stage 2 rejected with a
    body that is not JSON (a gateway error page, an empty body) fails with
    the message of the reading error, not with the default message of the
    stage; the chat panel guards the same read with [.catch(() => ({}))]. *)
Theorem C8_unreadable_error_body :
  ∃ s', settle 0 (rejected_unreadable "Unexpected end of JSON input") sample_running2
        = Some s'
        ∧ pipeline_state (app s') = Some (Failed "Unexpected end of JSON input")
        ∧ pipeline_state (app s') ≠ Some (Failed (default_message HModulo2)).
Proof.
  eexists. split; [reflexivity | split; [reflexivity | ]].
  intros H. discriminate H.
Qed.

(** ** The theorems at sample inputs *)

Lemma sample_review1_reachable (trim : string → string) :
  reachable trim sample_review1.
Proof.
  apply (reachable_step trim sample_running1
           (Settles 0 (success {[ "relatorio_descoberta" := JStr "Relatório..." ]}))).
  - apply (reachable_step trim initial (User (SubmitAudio sample_file)));
      [apply reachable_initial | reflexivity].
  - vm_compute. reflexivity.
Qed.

Lemma C1_linear_run_sample :
  enabled trim_ascii "upload" (SubmitAudio sample_file) = true
  ∧ truthy (JStr (trim_ascii "aprovo 1 e 3")) = true
  ∧ map observe
      <$> run trim_ascii
            (linear_run (SubmitAudio sample_file) "aprovo 1 e 3"
               {[ "relatorio_descoberta" := JStr "Relatório..." ]}
               {[ "bpmn_xml_as_is" := JStr "<definitions/>" ]}
               {[ "consultoria" := JStr "1. ... 2. ... 3. ..." ]}
               {[ "bpmn_xml_to_be" := JStr "<definitions/>" ]}
               {[ "pop_texto" := JStr "POP" ]})
            initial
    = Some [ (Some Idle, []);
             (Some (Running S1), [S1]); (Some (AwaitingReview S1), []);
             (Some (Running S2), [S2]); (Some (AwaitingReview S2), []);
             (Some (Running S3a), [S3a]); (Some (AwaitingReview S3a), []);
             (Some (Running S3b), [S3b]); (Some (AwaitingReview S3b), []);
             (Some (Running S4), [S4]); (Some (AwaitingReview S4), []) ].
Proof.
  split; [reflexivity | split; [reflexivity | ]].
  apply C1_linear_run_visits_in_order; reflexivity.
Defined.

Lemma C2_failure_sample :
  pipeline_state (app sample_running2) = Some (Running S2)
  ∧ succeeded (rejected {[ "detail" := JStr "audio ilegível" ]}) = false
  ∧ ∃ message s',
      settle 0 (rejected {[ "detail" := JStr "audio ilegível" ]}) sample_running2
      = Some s'
      ∧ pipeline_state (app s') = Some (Failed message)
      ∧ sessionData (app s') = sessionData (app sample_running2).
Proof.
  split; [reflexivity | split; [reflexivity | ]].
  eapply (C2_failure_keeps_record S2 _ sample_running2 0); reflexivity.
Defined.

Lemma C3_proposals_sample :
  "aprovo 1 e 3" ≠ ""
  ∧ pipeline_state (app sample_review3a) = Some (AwaitingReview S3a)
  ∧ succeeded (Throw "Failed to fetch") = false
  ∧ prop (sessionData (app (invoke (ApproveModulo3b "aprovo 1 e 3") sample_review3a)))
      "propostas_aprovadas" = JStr "aprovo 1 e 3"
  ∧ ∃ message s2,
      settle 0 (Throw "Failed to fetch")
        (invoke (ApproveModulo3b "aprovo 1 e 3") sample_review3a) = Some s2
      ∧ pipeline_state (app s2) = Some (Failed message)
      ∧ prop (sessionData (app s2)) "propostas_aprovadas" = JStr "aprovo 1 e 3".
Proof.
  assert ("aprovo 1 e 3" ≠ "") as Hne by (intros H; discriminate H).
  destruct (C3_proposals_kept_on_failure sample_review3a "aprovo 1 e 3"
              (Throw "Failed to fetch") Hne eq_refl eq_refl)
    as (_ & Hmerged & _ & Hfailed).
  split; [exact Hne | split; [reflexivity | split; [reflexivity | ]]].
  split; [exact Hmerged | exact Hfailed].
Defined.

Lemma C4_reset_sample :
  trim_ascii "" = ""
  ∧ reachable trim_ascii sample_review1
  ∧ step trim_ascii (User Reset) sample_review1 = Some initial
  ∧ inflight sample_review1 = []
  ∧ ∀ n settled, step trim_ascii (Settles n settled) initial = None.
Proof.
  pose proof (sample_review1_reachable trim_ascii) as Hreach.
  destruct (C4_reset_only_without_pending_call trim_ascii eq_refl
              sample_review1 Hreach) as [_ Hreset].
  destruct (Hreset initial eq_refl) as (Hnil & _ & Hnone).
  split; [reflexivity | split; [exact Hreach | split; [reflexivity | ]]].
  split; [exact Hnil | exact Hnone].
Defined.

Lemma C6_reset_sample :
  trim_ascii "" = ""
  ∧ reachable trim_ascii sample_review1
  ∧ pipeline_state (app (invoke Reset sample_review1)) = Some Idle
  ∧ sessionData (app (invoke Reset sample_review1)) = empty_session
  ∧ ∀ e s', step trim_ascii e sample_review1 = Some s' →
            e ≠ User Reset →
            sessionData (app s') = empty_session →
            sessionData (app sample_review1) = empty_session.
Proof.
  pose proof (sample_review1_reachable trim_ascii) as Hreach.
  destruct (C6_only_reset_empties_record trim_ascii eq_refl
              sample_review1 Hreach) as [(Hidle & Hempty & _) Honly].
  split; [reflexivity | split; [exact Hreach | ]].
  split; [exact Hidle | split; [exact Hempty | exact Honly]].
Defined.

(** * Further properties of [App] *)

(** X1: a success of a stage changes the record only at the keys that the stage
    writes, moves the view to the review of that stage and leaves the error
    text alone. *)
Theorem success_writes_only_its_keys (h : handler) (json : gmap string jsval)
    (st : App) :
  let st' := (settled_of h (success json) st).2 in
  view st' = view_of (AwaitingReview (stage_of h))
  ∧ error st' = error st
  ∧ ∀ k, k ∉ written_by h → sessionData st' !! k = sessionData st !! k.
Proof.
  cbv zeta. rewrite settled_success. cbn [snd view error sessionData].
  split; [reflexivity | split; [reflexivity | ]].
  intros k Hk. rewrite lookup_spread, (merged_on_success_outside h json k Hk).
  reflexivity.
Qed.

Lemma JSON_stringify_undefined (k : string) :
  JSON_stringify {[ k := JUndefined ]} = ∅.
Proof.
  apply map_eq. intros k'. rewrite lookup_JSON_stringify, lookup_empty.
  destruct (decide (k = k')) as [<- | Hne].
  - rewrite lookup_singleton_eq. reflexivity.
  - rewrite lookup_singleton_ne by exact Hne. reflexivity.
Qed.

(** X2: no handler checks that a success body has the field it reads: a stage 1
    success without [relatorio_descoberta] still moves to the review, with
    the report [undefined], and the stage 2 request then built from that
    record has an empty body. *)
Theorem success_without_report_sends_empty_body (json : gmap string jsval)
    (st : App) :
  json !! "relatorio_descoberta" = None →
  let st1 := (handleUpload_settled (success json) st).2 in
  view st1 = "review1"
  ∧ prop (sessionData st1) "relatorio_descoberta" = JUndefined
  ∧ (handleModulo2 (sessionData st1) st1).1
    = Return {| url := "/api/modulo2"; body := JsonBody ∅ |}.
Proof.
  intros Hjson st1.
  assert (prop (sessionData st1) "relatorio_descoberta" = JUndefined) as Hrel.
  { unfold st1. fold_settled. rewrite settled_success. cbn [snd sessionData].
    rewrite prop_spread. cbn [merged_on_success].
    rewrite lookup_singleton_eq. unfold prop. rewrite Hjson. reflexivity. }
  split; [reflexivity | split; [exact Hrel | ]].
  unfold handleModulo2. cbn [mbind Eff_bind eff_bind setView setError mret Eff_ret
                              eff_ret fst fetch].
  rewrite Hrel, JSON_stringify_undefined. reflexivity.
Qed.

Lemma success_without_report_sample :
  (∅ : gmap string jsval) !! "relatorio_descoberta" = None
  ∧ (handleModulo2
       (sessionData (handleUpload_settled (success ∅) (app sample_running1)).2)
       (handleUpload_settled (success ∅) (app sample_running1)).2).1
    = Return {| url := "/api/modulo2"; body := JsonBody ∅ |}.
Proof.
  split; [reflexivity | ].
  exact (proj2 (proj2 (success_without_report_sends_empty_body ∅
                         (app sample_running1) eq_refl))).
Defined.

(** X9: the label of the progress screen is empty exactly outside the five
    processing views. *)
Theorem processingLabel_iff_processing (v : string) :
  isProcessing v = negb (String.eqb (processingLabel v) "").
Proof.
  unfold processingLabel.
  repeat match goal with
         | |- context [if String.eqb v ?x then _ else _] =>
             destruct (String.eqb v x) eqn:?;
             [ match goal with
               | H : String.eqb v _ = true |- _ =>
                   apply String.eqb_eq in H; subst v; reflexivity
               end | ]
         end.
  apply bool_decide_eq_false_2. intros Hv.
  rewrite !elem_of_cons, elem_of_nil in Hv.
  repeat match goal with
         | H : String.eqb v _ = false |- _ => apply String.eqb_neq in H
         end.
  intuition congruence.
Qed.

Lemma merged_on_success_inside (h : handler) (json : gmap string jsval) (k : string) :
  is_Some (merged_on_success h json !! k) → k ∈ written_by h.
Proof.
  intros Hk. destruct (decide (k ∈ written_by h)) as [Hin | Hout]; [exact Hin | ].
  rewrite (merged_on_success_outside h json k Hout) in Hk.
  destruct Hk as [v Hv]. discriminate Hv.
Qed.

Lemma written_by_is_field (h : handler) (k : string) :
  k ∈ written_by h → is_Some (empty_session !! k).
Proof.
  intros Hk. destruct h; simpl in Hk;
    rewrite !elem_of_cons, elem_of_nil in Hk;
    repeat (destruct Hk as [-> | Hk]; [eexists; reflexivity | ]); destruct Hk.
Qed.

Section ReachableStates.

Variable trim : string → string.
Hypothesis trim_empty : trim "" = "".

(** X3: in every reachable state a call is pending exactly while the view is
    a processing view, there is only one, and it is the call of the stage
    that runs. *)
Theorem pending_call_iff_processing (s : System) :
  reachable trim s →
  (isProcessing (view (app s)) = true
   ∧ ∃ c, inflight s = [c]
          ∧ pipeline_state (app s) = Some (Running (stage_of (caller c))))
  ∨ (isProcessing (view (app s)) = false ∧ inflight s = []).
Proof.
  intros Hreach.
  destruct (reachable_Inv trim trim_empty s Hreach) as (p & Hp & Hc & _).
  pose proof (view_of_state p _ (eq_sym (pipeline_state_view _ _ Hp))) as Hv.
  destruct p as [ | st | st | m]; simpl in Hc.
  - right. rewrite Hv. split; [reflexivity | exact Hc].
  - left. destruct Hc as (c & Hc & Hst). split.
    + destruct st; rewrite Hv; reflexivity.
    + exists c. rewrite Hst. split; assumption.
  - right. split; [destruct st; rewrite Hv; reflexivity | exact Hc].
  - right. rewrite Hv. split; [reflexivity | exact Hc].
Qed.

(** X4: in every reachable state the error text is empty unless the view is
    the error view. *)
Theorem error_only_in_error_view (s : System) :
  reachable trim s → view (app s) = "error" ∨ error (app s) = "".
Proof.
  induction 1 as [ | s e s' Hreach IH Hstep]; [right; reflexivity | ].
  destruct e as [a | n settled]; cbn [step] in Hstep.
  - destruct (enabled trim (view (app s)) a); [ | discriminate Hstep].
    injection Hstep as <-. right. destruct a; reflexivity.
  - apply settle_Some in Hstep as (c & Hn & ->). cbn [app].
    destruct (succeeded settled) eqn:Hok.
    + apply succeeded_success in Hok as (json & ->).
      rewrite settled_success. cbn [snd view error]. right.
      destruct IH as [Hv | He]; [ | exact He]. exfalso.
      destruct (reachable_Inv trim trim_empty s Hreach) as (p & Hp & Hc & _).
      destruct (calls_at_lookup _ _ _ _ Hc Hn) as (st & -> & _).
      apply pipeline_state_view in Hp. rewrite Hv in Hp.
      destruct st; discriminate Hp.
    + destruct (settled_failure (caller c) settled (app s) Hok) as (m & ->).
      left. reflexivity.
Qed.

(** X5: there is no retry and no way back: in a reachable state showing the
    error view or the final view, the only step is a reset, and it leads
    to the initial state. *)
Theorem terminal_views_only_reset (s s' : System) (e : event) :
  reachable trim s →
  view (app s) = "error" ∨ view (app s) = "final" →
  step trim e s = Some s' →
  e = User Reset ∧ s' = initial.
Proof.
  intros Hreach Hv Hstep.
  destruct (reachable_Inv trim trim_empty s Hreach) as (p & Hp & Hc & _).
  assert (inflight s = []) as Hnil.
  { pose proof (view_of_state p _ (eq_sym (pipeline_state_view _ _ Hp))) as Hpv.
    destruct p as [ | [] | [] | m]; simpl in Hc; try exact Hc;
      destruct Hv as [Hv | Hv]; rewrite Hv in Hpv; discriminate Hpv. }
  destruct e as [a | n settled]; cbn [step] in Hstep.
  - destruct (enabled trim (view (app s)) a) eqn:He; [ | discriminate Hstep].
    injection Hstep as <-. apply enabled_view in He.
    destruct a; try (destruct Hv as [Hv | Hv]; rewrite Hv in He; discriminate He).
    split; [reflexivity | ]. rewrite invoke_Reset, Hnil. reflexivity.
  - apply settle_Some in Hstep as (c & Hn & _).
    rewrite Hnil in Hn. discriminate Hn.
Qed.

(** X7: the record never gains or loses a key: in every reachable state it has
    exactly the seven text fields and the two validation fields. *)
Theorem record_keys_fixed (s : System) (k : string) :
  reachable trim s →
  is_Some (sessionData (app s) !! k) ↔ k ∈ text_fields ∨ k ∈ validation_fields.
Proof.
  intros Hreach.
  assert (is_Some (empty_session !! k) ↔ k ∈ text_fields ∨ k ∈ validation_fields)
    as Hfields.
  { rewrite empty_session_fields.
    destruct (bool_decide (k ∈ text_fields)) eqn:Ht.
    - apply bool_decide_eq_true_1 in Ht. split; [tauto | eexists; reflexivity].
    - apply bool_decide_eq_false_1 in Ht.
      destruct (bool_decide (k ∈ validation_fields)) eqn:Hv.
      + apply bool_decide_eq_true_1 in Hv. split; [tauto | eexists; reflexivity].
      + apply bool_decide_eq_false_1 in Hv.
        split; [intros [v Hk]; discriminate Hk | tauto]. }
  rewrite <- Hfields. clear Hfields.
  induction Hreach as [ | s e s' Hreach IH Hstep]; [reflexivity | ].
  destruct e as [a | n settled]; cbn [step] in Hstep.
  - destruct (enabled trim (view (app s)) a); [ | discriminate Hstep].
    injection Hstep as <-. rewrite invoke_session.
    destruct a; try exact IH; [ | reflexivity].
    rewrite lookup_spread.
    destruct (decide (k = "propostas_aprovadas")) as [-> | Hne].
    + rewrite lookup_singleton_eq. split; intros _; eexists; reflexivity.
    + rewrite lookup_singleton_ne by congruence. exact IH.
  - apply settle_Some in Hstep as (c & Hn & ->). cbn [app].
    destruct (succeeded settled) eqn:Hok.
    + apply succeeded_success in Hok as (json & ->).
      rewrite settled_success. cbn [snd sessionData]. rewrite lookup_spread.
      destruct (merged_on_success (caller c) json !! k) as [v | ] eqn:Hk;
        [ | exact IH].
      split; [intros _ | intros _; eexists; reflexivity].
      apply (written_by_is_field (caller c)).
      apply (merged_on_success_inside _ json). rewrite Hk. eexists. reflexivity.
    + destruct (settled_failure (caller c) settled (app s) Hok) as (m & ->).
      exact IH.
Qed.

(** X8: from the moment stage 3b runs (and unless the run failed) the record
    holds a non-empty [propostas_aprovadas]. *)
Theorem proposals_nonempty_from_3b (s : System) :
  reachable trim s →
  view (app s) ∈ ["modulo3b"; "review3b"; "modulo4"; "final"] →
  ∃ p, p ≠ "" ∧ prop (sessionData (app s)) "propostas_aprovadas" = JStr p.
Proof.
  intros Hreach Hv.
  destruct (reachable_Inv trim trim_empty s Hreach) as (p & Hp & _ & Hs).
  pose proof (view_of_state p _ (eq_sym (pipeline_state_view _ _ Hp))) as Hpv.
  assert (proposals_chosen (sessionData (app s))) as (q & Hq & Hlook).
  { destruct p as [ | [] | [] | m]; simpl in Hs; try exact Hs;
      rewrite Hpv in Hv; rewrite !elem_of_cons, elem_of_nil in Hv;
      exfalso; intuition discriminate. }
  exists q. split; [exact Hq | ]. unfold prop. rewrite Hlook. reflexivity.
Qed.

(** X10: in every reachable state [App] renders exactly one of its four
    regions, and when it is [ResultPage], that component returns a screen
    (never [null]). *)
Theorem exactly_one_region (s : System) :
  reachable trim s →
  ∃ r, rendered_regions (view (app s)) = [r]
       ∧ (r = ResultRegion → is_Some (ResultPage.screen_of (view (app s)))).
Proof.
  intros Hreach.
  destruct (reachable_Inv trim trim_empty s Hreach) as (p & Hp & _ & _).
  pose proof (view_of_state p _ (eq_sym (pipeline_state_view _ _ Hp))) as Hv.
  destruct p as [ | [] | [] | m]; rewrite Hv; eexists;
    (split; [reflexivity | ]); intros Hr; try discriminate Hr;
    eexists; reflexivity.
Qed.

End ReachableStates.

(** * [StepProgress], [ResultPage] *)

(** X11: while a stage is processing, the progress screen has exactly one
    active step, the one [getActiveStep] gives; the steps before it are
    done and the steps after it are pending. *)
Theorem active_step_while_processing (v : string) :
  isProcessing v = true →
  let c := getActiveStep v in
  0 ≤ c ≤ 3
  ∧ StepProgress.statuses c
    = (replicate (Z.to_nat c) StepProgress.done
       ++ [StepProgress.active]
       ++ replicate (3 - Z.to_nat c) StepProgress.pending)%list.
Proof.
  intros Hv. apply bool_decide_eq_true_1 in Hv.
  rewrite !elem_of_cons, elem_of_nil in Hv.
  destruct Hv as [-> | [-> | [-> | [-> | [-> | []]]]]];
    (split; [split; discriminate | reflexivity]).
Qed.

Lemma active_step_sample :
  isProcessing "modulo3b" = true
  ∧ StepProgress.statuses (getActiveStep "modulo3b")
    = [StepProgress.done; StepProgress.done; StepProgress.active;
       StepProgress.pending].
Proof.
  split; [reflexivity | ].
  exact (proj2 (active_step_while_processing "modulo3b" eq_refl)).
Defined.

Lemma startsWith_review_head (v : string) :
  startsWith v "review" = true → ∃ v', v = String "r"%char v'.
Proof.
  destruct v as [ | c v']; [intros H; discriminate H | ].
  unfold startsWith. cbn [String.prefix].
  destruct (ascii_dec "r"%char c) as [<- | ]; [ | intros H; discriminate H].
  intros _. exists v'. reflexivity.
Qed.

(** X12: for every view that [App] shows [ResultPage] for, the module number of
    [ResultPage] is the active step of [App] plus one (also for a view
    neither knows: 0 and -1). *)
Theorem getModuleNumber_is_step_plus_one (v : string) :
  startsWith v "review" || String.eqb v "final" = true →
  ResultPage.getModuleNumber v = getActiveStep v + 1.
Proof.
  intros Hv. apply orb_true_iff in Hv as [Hv | Hv].
  - apply startsWith_review_head in Hv as (v' & ->).
    unfold ResultPage.getModuleNumber, getActiveStep, startsWith.
    cbn [String.prefix]. simpl (ascii_dec _ _). cbn [orb].
    repeat match goal with
           | |- context [String.eqb (String "r"%char v') ?x] =>
               destruct (String.eqb (String "r"%char v') x)
           end; reflexivity.
  - apply String.eqb_eq in Hv as ->. reflexivity.
Qed.

Lemma getModuleNumber_sample :
  startsWith "review3b" "review" || String.eqb "review3b" "final" = true
  ∧ ResultPage.getModuleNumber "review3b" = getActiveStep "review3b" + 1.
Proof.
  split; [reflexivity | ].
  exact (getModuleNumber_is_step_plus_one "review3b" eq_refl).
Defined.


(** * [UploadPage] *)

Lemma split_dot_nonempty (s : string) : UploadPage.split_dot s ≠ [].
Proof.
  destruct s as [ | c s]; simpl; [discriminate | ].
  destruct (Ascii.eqb c "."); [discriminate | ].
  destruct (UploadPage.split_dot s); discriminate.
Qed.

Lemma split_dot_dotless (s : string) :
  UploadPage.dotless s = true → UploadPage.split_dot s = [s].
Proof.
  induction s as [ | c s IH]; simpl; [reflexivity | ].
  destruct (Ascii.eqb c "."); simpl; [intros H; discriminate H | ].
  intros Hs. rewrite (IH Hs). reflexivity.
Qed.

Lemma split_dot_app (stem ext : string) :
  UploadPage.split_dot (String.append stem (String "."%char ext))
  = (UploadPage.split_dot stem ++ UploadPage.split_dot ext)%list.
Proof.
  induction stem as [ | c stem IH].
  - reflexivity.
  - change (String.append (String c stem) (String "."%char ext))
      with (String c (String.append stem (String "."%char ext))).
    cbn [UploadPage.split_dot]. rewrite IH.
    destruct (Ascii.eqb c "."); [reflexivity | ].
    destruct (UploadPage.split_dot stem) as [ | h t] eqn:Hstem;
      [exfalso; exact (split_dot_nonempty stem Hstem) | reflexivity].
Qed.

Lemma last_split_dot (stem ext : string) :
  UploadPage.dotless ext = true →
  last (UploadPage.split_dot (String.append stem (String "."%char ext))) = Some ext
  ∧ last (UploadPage.split_dot ext) = Some ext.
Proof.
  intros Hext. rewrite split_dot_app, (split_dot_dotless ext Hext).
  rewrite last_snoc. split; reflexivity.
Qed.

Section Upload.

Variable toLowerCase : string → string.
Variable trim : string → string.

(** X14: the extension that [handleFiles] tests is the text after the last dot
    of the name, and the whole name when the name has no dot. *)
Theorem extension_after_last_dot (stem ext bytes : string) :
  UploadPage.dotless ext = true →
  UploadPage.extension toLowerCase
    (mkFile (String.append stem (String "."%char ext)) bytes)
  = toLowerCase ext
  ∧ UploadPage.extension toLowerCase (mkFile ext bytes) = toLowerCase ext.
Proof.
  intros Hext. unfold UploadPage.extension. cbn [UploadPage.name_of].
  destruct (last_split_dot stem ext Hext) as [-> ->]. split; reflexivity.
Qed.

(** X15: [handleFiles] looks at the first file only. When the text after the
    last dot of its name, in lower case, is one of the seven formats, the
    file becomes the selection and nothing is alerted; otherwise the
    selection stays as it was and an alert is raised. An empty list
    changes nothing. *)
Theorem handleFiles_selects_by_extension (stem ext bytes : string)
    (rest : list File) (st : UploadPage.State) :
  UploadPage.dotless ext = true →
  let f := mkFile (String.append stem (String "."%char ext)) bytes in
  (toLowerCase ext ∈ UploadPage.allowed →
   UploadPage.handleFiles toLowerCase (f :: rest) st
   = ({| UploadPage.mode := UploadPage.mode st;
         UploadPage.file := Some f;
         UploadPage.text_value := UploadPage.text_value st;
         UploadPage.isDragging := UploadPage.isDragging st |}, None))
  ∧ (toLowerCase ext ∉ UploadPage.allowed →
     (UploadPage.handleFiles toLowerCase (f :: rest) st).1 = st
     ∧ is_Some (UploadPage.handleFiles toLowerCase (f :: rest) st).2)
  ∧ UploadPage.handleFiles toLowerCase [] st = (st, None).
Proof.
  intros Hext f.
  assert (UploadPage.extension toLowerCase f = toLowerCase ext) as Hf.
  { unfold UploadPage.extension, f. cbn [UploadPage.name_of].
    destruct (last_split_dot stem ext Hext) as [-> _]. reflexivity. }
  unfold UploadPage.handleFiles. cbn [lookup list_lookup].
  rewrite Hf. split; [ | split; [ | reflexivity]].
  - intros Hin. rewrite (bool_decide_eq_true_2 _ Hin). reflexivity.
  - intros Hout. rewrite (bool_decide_eq_false_2 _ Hout).
    split; [reflexivity | eexists; reflexivity].
Qed.

(** X16: the submit button is enabled exactly when [handleSubmit] calls a
    handler of [App]; what it calls is the handler of the current mode
    with that mode's input, and [App] accepts it in its upload view. *)
Theorem canSubmit_iff_handleSubmit (st : UploadPage.State) :
  (UploadPage.canSubmit trim st = true
   ↔ is_Some (UploadPage.handleSubmit trim st))
  ∧ ∀ a, UploadPage.handleSubmit trim st = Some a →
         enabled trim "upload" a = true
         ∧ match UploadPage.mode st with
           | UploadPage.audio => ∃ f, UploadPage.file st = Some f ∧ a = SubmitAudio f
           | UploadPage.text => a = SubmitText (UploadPage.text_value st)
           end.
Proof.
  unfold UploadPage.canSubmit, UploadPage.handleSubmit.
  destruct (UploadPage.mode st), (UploadPage.file st) as [f | ];
    (split; [ | intros a Ha]).
  - split; [intros _; eexists; reflexivity | reflexivity].
  - injection Ha as <-. split; [reflexivity | exists f; split; reflexivity].
  - split; [intros H; discriminate H | intros [a Ha]; discriminate Ha].
  - discriminate Ha.
  - destruct (trim (UploadPage.text_value st)); simpl;
      (split; [intros H; try discriminate H; eexists; reflexivity
              | intros [x Hx]; try discriminate Hx; reflexivity]).
  - destruct (truthy (JStr (trim (UploadPage.text_value st)))) eqn:Ht;
      [ | discriminate Ha].
    injection Ha as <-. split; [ | reflexivity].
    unfold enabled. rewrite Ht. reflexivity.
  - destruct (trim (UploadPage.text_value st)); simpl;
      (split; [intros H; try discriminate H; eexists; reflexivity
              | intros [x Hx]; try discriminate Hx; reflexivity]).
  - destruct (truthy (JStr (trim (UploadPage.text_value st)))) eqn:Ht;
      [ | discriminate Ha].
    injection Ha as <-. split; [ | reflexivity].
    unfold enabled. rewrite Ht. reflexivity.
Qed.

End Upload.

Lemma extension_sample :
  UploadPage.dotless "MP3" = true
  ∧ UploadPage.extension toLowerCase_ascii (mkFile "entrevista.final.MP3" "") = "mp3"
  ∧ UploadPage.extension toLowerCase_ascii (mkFile "MP3" "") = "mp3".
Proof.
  split; [reflexivity | ].
  exact (extension_after_last_dot toLowerCase_ascii "entrevista.final" "MP3" ""
           eq_refl).
Defined.

Lemma handleFiles_sample :
  UploadPage.dotless "exe" = true
  ∧ (UploadPage.handleFiles toLowerCase_ascii
       [mkFile "audio.mp3.exe" ""; mkFile "b.mp3" ""]
       (UploadPage.removeFile UploadPage.initial_state)).1
    = UploadPage.removeFile UploadPage.initial_state.
Proof.
  split; [reflexivity | ].
  refine (proj1 (proj1 (proj2 (handleFiles_selects_by_extension toLowerCase_ascii
                                 "audio.mp3" "exe" "" [mkFile "b.mp3" ""]
                                 (UploadPage.removeFile UploadPage.initial_state)
                                 eq_refl)) _)).
  vm_compute. intros H. repeat (inversion H as [ | ? ? ? H']; clear H; rename H' into H).
Defined.

(** * [ChatPanel] *)

Section Chat.

Variable trim : string → string.

(** X17: an exchange in the chat: when the trimmed input is not empty and no
    reply is pending, the request carries the context and the history with
    the new question at its end; once the call has settled, whether it
    succeeded or failed, the history has grown by exactly the question and
    one answer, the input is empty and nothing is pending. *)
Theorem chat_exchange_appends_two (ctx : jsval) (settled : fetch_outcome)
    (st : ChatPanel.State) :
  truthy (JStr (trim (ChatPanel.input st))) = true →
  ChatPanel.loading st = false →
  let question :=
    {| ChatPanel.role := "user";
       ChatPanel.content := JStr (trim (ChatPanel.input st)) |} in
  (ChatPanel.handleSend trim ctx st).2
  = Some {| ChatPanel.context := ctx;
            ChatPanel.history := (ChatPanel.messages st ++ [question])%list |}
  ∧ ChatPanel.loading (ChatPanel.handleSend trim ctx st).1 = true
  ∧ ∃ answer,
      ChatPanel.exchange trim ctx settled st
      = {| ChatPanel.messages :=
             (ChatPanel.messages st
              ++ [question;
                  {| ChatPanel.role := "assistant";
                     ChatPanel.content := answer |}])%list;
           ChatPanel.input := "";
           ChatPanel.loading := false;
           ChatPanel.isOpen := ChatPanel.isOpen st |}.
Proof.
  intros Hinput Hloading question.
  unfold ChatPanel.exchange, ChatPanel.handleSend.
  rewrite Hinput, Hloading. cbn [negb orb fst snd ChatPanel.history].
  split; [reflexivity | split; [reflexivity | ]].
  unfold ChatPanel.handleSend_settled.
  destruct (ChatPanel.reply_of settled) as [reply | e]; eexists;
    cbn [ChatPanel.setMessages ChatPanel.setInput ChatPanel.setLoading
         ChatPanel.messages ChatPanel.input ChatPanel.loading ChatPanel.isOpen];
    rewrite <- app_assoc; reflexivity.
Qed.

(** X18: a send is refused, with no request and no change, when the trimmed
    input is empty or a reply is pending; in particular after a send that
    went out, a second send is refused whatever is typed meanwhile. *)
Theorem chat_send_refused_while_pending (ctx : jsval) (st : ChatPanel.State)
    (typed : string) :
  (truthy (JStr (trim (ChatPanel.input st))) = false ∨ ChatPanel.loading st = true →
   ChatPanel.handleSend trim ctx st = (st, None))
  ∧ (is_Some (ChatPanel.handleSend trim ctx st).2 →
     let st1 := ChatPanel.setInput typed (ChatPanel.handleSend trim ctx st).1 in
     ChatPanel.handleSend trim ctx st1 = (st1, None)).
Proof.
  split.
  - intros [Hinput | Hloading]; unfold ChatPanel.handleSend.
    + rewrite Hinput. reflexivity.
    + rewrite Hloading, orb_true_r. reflexivity.
  - unfold ChatPanel.handleSend at 1 2.
    destruct (negb (truthy (JStr (trim (ChatPanel.input st))))
              || ChatPanel.loading st);
      [intros [req Hreq]; discriminate Hreq | ].
    intros _. cbv zeta. cbn [fst]. unfold ChatPanel.handleSend.
    cbn [ChatPanel.loading ChatPanel.setInput ChatPanel.setLoading].
    rewrite orb_true_r. reflexivity.
Qed.


End Chat.

Lemma chat_exchange_sample :
  truthy (JStr (trim_ascii " Resuma os gargalos ")) = true
  ∧ ∃ answer,
      ChatPanel.exchange trim_ascii (JStr "Relatório...")
        (success {[ "reply" := JStr "Dois gargalos." ]})
        (ChatPanel.setInput " Resuma os gargalos " ChatPanel.initial_state)
      = {| ChatPanel.messages :=
             [ {| ChatPanel.role := "user";
                  ChatPanel.content := JStr "Resuma os gargalos" |};
               {| ChatPanel.role := "assistant"; ChatPanel.content := answer |} ];
           ChatPanel.input := "";
           ChatPanel.loading := false;
           ChatPanel.isOpen := false |}.
Proof.
  split; [reflexivity | ].
  exact (proj2 (proj2 (chat_exchange_appends_two trim_ascii (JStr "Relatório...")
                         (success {[ "reply" := JStr "Dois gargalos." ]})
                         (ChatPanel.setInput " Resuma os gargalos "
                            ChatPanel.initial_state)
                         eq_refl eq_refl))).
Defined.


(** * The properties of the reachable states at sample states *)

Lemma run_last_reachable (trim : string → string) (events : list event) :
  ∀ s visited s',
    reachable trim s →
    run trim events s = Some visited →
    last visited = Some s' →
    reachable trim s'.
Proof.
  induction events as [ | e events IH]; intros s visited s' Hs Hrun Hlast.
  - injection Hrun as <-. injection Hlast as <-. exact Hs.
  - cbn [run] in Hrun.
    destruct (step trim e s) as [s1 | ] eqn:Hstep; [ | discriminate Hrun].
    destruct (run trim events s1) as [visited1 | ] eqn:Hrun1; [ | discriminate Hrun].
    injection Hrun as <-.
    apply (IH s1 visited1 s' (reachable_step trim s e s1 Hs Hstep) Hrun1).
    destruct visited1 as [ | s2 visited2]; [ | exact Hlast].
    destruct events; cbn [run] in Hrun1; [discriminate Hrun1 | ].
    destruct (step trim e0 s1); [ | discriminate Hrun1].
    destruct (run trim events s0); discriminate Hrun1.
Qed.

Lemma sample_running2_reachable (trim : string → string) :
  reachable trim sample_running2.
Proof.
  apply (reachable_step trim sample_review1 (User ApproveModulo2));
    [apply sample_review1_reachable | reflexivity].
Qed.

Lemma sample_failed2_reachable (trim : string → string) :
  reachable trim sample_failed2.
Proof.
  apply (reachable_step trim sample_running2
           (Settles 0 (rejected {[ "detail" := JStr "audio ilegível" ]})));
    [apply sample_running2_reachable | vm_compute; reflexivity].
Qed.

Lemma sample_running3b_reachable : reachable trim_ascii sample_running3b.
Proof.
  unfold sample_running3b.
  destruct (run trim_ascii sample_events_3b initial) as [visited | ] eqn:Hrun;
    [ | apply reachable_initial].
  cbn [mbind option_bind].
  destruct (last visited) as [s | ] eqn:Hlast; [ | apply reachable_initial].
  exact (run_last_reachable trim_ascii sample_events_3b initial visited s
           (reachable_initial trim_ascii) Hrun Hlast).
Qed.

Lemma processing_shows_no_control_sample :
  isProcessing "modulo2" = true
  ∧ enabled trim_ascii "modulo2" Reset = false.
Proof.
  split; [reflexivity | ].
  exact (processing_shows_no_control trim_ascii "modulo2" Reset eq_refl).
Defined.

Lemma pending_call_sample :
  trim_ascii "" = ""
  ∧ reachable trim_ascii sample_running2
  ∧ ((isProcessing (view (app sample_running2)) = true
      ∧ ∃ c, inflight sample_running2 = [c]
             ∧ pipeline_state (app sample_running2)
               = Some (Running (stage_of (caller c))))
     ∨ (isProcessing (view (app sample_running2)) = false
        ∧ inflight sample_running2 = [])).
Proof.
  split; [reflexivity | split; [apply sample_running2_reachable | ]].
  exact (pending_call_iff_processing trim_ascii eq_refl sample_running2
           (sample_running2_reachable trim_ascii)).
Defined.

Lemma error_only_in_error_view_sample :
  trim_ascii "" = ""
  ∧ reachable trim_ascii sample_running2
  ∧ (view (app sample_running2) = "error" ∨ error (app sample_running2) = "").
Proof.
  split; [reflexivity | split; [apply sample_running2_reachable | ]].
  exact (error_only_in_error_view trim_ascii eq_refl sample_running2
           (sample_running2_reachable trim_ascii)).
Defined.

Lemma terminal_views_sample :
  trim_ascii "" = ""
  ∧ reachable trim_ascii sample_failed2
  ∧ (view (app sample_failed2) = "error" ∨ view (app sample_failed2) = "final")
  ∧ step trim_ascii (User Reset) sample_failed2 = Some initial
  ∧ User Reset = User Reset ∧ initial = initial.
Proof.
  split; [reflexivity | split; [apply sample_failed2_reachable | ]].
  split; [left; reflexivity | split; [reflexivity | ]].
  exact (terminal_views_only_reset trim_ascii eq_refl sample_failed2 initial
           (User Reset) (sample_failed2_reachable trim_ascii)
           (or_introl eq_refl) eq_refl).
Defined.

Lemma record_keys_sample :
  reachable trim_ascii sample_failed2
  ∧ (is_Some (sessionData (app sample_failed2) !! "detail")
     ↔ "detail" ∈ text_fields ∨ "detail" ∈ validation_fields).
Proof.
  split; [apply sample_failed2_reachable | ].
  exact (record_keys_fixed trim_ascii sample_failed2 "detail"
           (sample_failed2_reachable trim_ascii)).
Defined.

Lemma proposals_nonempty_sample :
  trim_ascii "" = ""
  ∧ reachable trim_ascii sample_running3b
  ∧ view (app sample_running3b) ∈ ["modulo3b"; "review3b"; "modulo4"; "final"]
  ∧ ∃ p, p ≠ ""
         ∧ prop (sessionData (app sample_running3b)) "propostas_aprovadas" = JStr p.
Proof.
  assert (view (app sample_running3b)
          ∈ ["modulo3b"; "review3b"; "modulo4"; "final"]) as Hv.
  { vm_compute. apply list_elem_of_here. }
  split; [reflexivity | split; [apply sample_running3b_reachable | ]].
  split; [exact Hv | ].
  exact (proposals_nonempty_from_3b trim_ascii eq_refl sample_running3b
           sample_running3b_reachable Hv).
Defined.

Lemma exactly_one_region_sample :
  trim_ascii "" = ""
  ∧ reachable trim_ascii sample_review1
  ∧ ∃ r, rendered_regions (view (app sample_review1)) = [r]
         ∧ (r = ResultRegion
            → is_Some (ResultPage.screen_of (view (app sample_review1)))).
Proof.
  split; [reflexivity | split; [apply sample_review1_reachable | ]].
  exact (exactly_one_region trim_ascii eq_refl sample_review1
           (sample_review1_reachable trim_ascii)).
Defined.
